(** * Math-genealogy pipeline ([src/main.py]): a shallow embedding

    The pipeline fetches Mathematics Genealogy Project records, caches
    them, and computes rankings and graph statistics over them.  The
    records are JSON documents handled with Python's dynamic operations
    ([in], [.get], [.items], truthiness), so the embedding starts with a
    small model of those operations and of the exceptions they raise.

    Numbers are integers here: ids and counts of the directory service
    are integers, and a JSON number with a fraction or an exponent is
    outside the value model.  A Python [dict] is an association list in
    insertion order; a real dict never repeats a key, and every statement
    below that quantifies over association lists covers those. *)

From Stdlib Require Import ZArith List String Ascii Bool Lia Permutation Sorted
  DecimalString.
Import ListNotations.
Open Scope string_scope.
Open Scope list_scope.

(** ** Exceptions and the error monad *)

Inductive exn :=
| FileNotFoundError
| PermissionError
| UnicodeDecodeError
| JSONDecodeError
| ConnectionError
| HTTPError (status : Z)
| TypeError
| AttributeError
| KeyError
| ValueError
| KeyboardInterrupt.

(** [except Exception] catches every class but the [BaseException]-only
    ones; [except FileNotFoundError] catches that class alone. *)
Definition is_Exception (e : exn) : bool :=
  match e with
  | KeyboardInterrupt => false
  | _ => true
  end.

Definition is_FileNotFoundError (e : exn) : bool :=
  match e with
  | FileNotFoundError => true
  | _ => false
  end.

Inductive result (A : Type) :=
| Ok (a : A)
| Raise (e : exn).
Arguments Ok {A} a.
Arguments Raise {A} e.

Definition bind {A B} (c : result A) (k : A -> result B) : result B :=
  match c with
  | Ok a => k a
  | Raise e => Raise e
  end.

Notation "x <- c ;; k" := (bind c (fun x => k))
  (at level 61, c at next level, right associativity).

(** [try: body / except <class>: handler] *)
Definition try_except {A} (body : result A) (catches : exn -> bool)
  (handler : exn -> result A) : result A :=
  match body with
  | Ok a => Ok a
  | Raise e => if catches e then handler e else Raise e
  end.

(** ** JSON values and Python's operations on them *)

Set Warnings "-register-all".

Inductive json :=
| JNull
| JBool (b : bool)
| JInt (z : Z)
| JStr (s : string)
| JList (l : list json)
| JObj (kvs : list (string * json)).

(** [bool(v)] *)
Definition truthy (v : json) : bool :=
  match v with
  | JNull => false
  | JBool b => b
  | JInt z => negb (z =? 0)%Z
  | JStr s => negb (s =? "")
  | JList l => match l with [] => false | _ => true end
  | JObj kvs => match kvs with [] => false | _ => true end
  end.

Fixpoint lookup {V} (k : string) (d : list (string * V)) : option V :=
  match d with
  | [] => None
  | (k', v) :: d' => if k =? k' then Some v else lookup k d'
  end.

Definition is_str (k : string) (v : json) : bool :=
  match v with
  | JStr s => s =? k
  | _ => false
  end.

(** [k in v] for a string [k]: key of a dict, element of a list,
    substring of a string; anything else is not iterable. *)
Definition py_in (k : string) (v : json) : result bool :=
  match v with
  | JObj kvs => Ok (match lookup k kvs with Some _ => true | None => false end)
  | JList l => Ok (existsb (is_str k) l)
  | JStr s => Ok (match index 0 k s with Some _ => true | None => false end)
  | _ => Raise TypeError
  end.

(** [v[k]] for a string [k] *)
Definition py_getitem (v : json) (k : string) : result json :=
  match v with
  | JObj kvs => match lookup k kvs with Some x => Ok x | None => Raise KeyError end
  | _ => Raise TypeError
  end.

(** [v.get(k, default)]: only a dict has the method. *)
Definition py_get (v : json) (k : string) (default : json) : result json :=
  match v with
  | JObj kvs => Ok (match lookup k kvs with Some x => x | None => default end)
  | _ => Raise AttributeError
  end.

(** A string holds the UTF-8 text: a character starts at every byte
    that is not a continuation byte (10xxxxxx), and takes the
    continuation bytes that follow it. *)
Definition starts_character (c : ascii) : bool :=
  negb (Nat.leb 128 (nat_of_ascii c) && Nat.ltb (nat_of_ascii c) 192).

Definition continued (s : string) : bool :=
  match s with
  | String c _ => negb (starts_character c)
  | EmptyString => false
  end.

Fixpoint characters (s : string) : list string :=
  match s with
  | EmptyString => []
  | String c s' =>
      match characters s' with
      | next :: rest =>
          if continued s' then String c next :: rest
          else String c EmptyString :: next :: rest
      | [] => [String c EmptyString]
      end
  end.

(** The characters of a string, each a string of its own *)
Definition chars (s : string) : list json := map JStr (characters s).

(** [for x in v] *)
Definition py_iter (v : json) : result (list json) :=
  match v with
  | JList l => Ok l
  | JObj kvs => Ok (map (fun kv => JStr (fst kv)) kvs)
  | JStr s => Ok (chars s)
  | _ => Raise TypeError
  end.

(** [v.items()] *)
Definition py_items (v : json) : result (list (string * json)) :=
  match v with
  | JObj kvs => Ok kvs
  | _ => Raise AttributeError
  end.

(** [for x in l: acc.extend(f(x))] *)
Fixpoint extend_each {A B} (f : A -> result (list B)) (l : list A)
  : result (list B) :=
  match l with
  | [] => Ok []
  | x :: l' =>
      ys <- f x ;;
      rest <- extend_each f l' ;;
      Ok (ys ++ rest)
  end.

(** ** Relationship extraction *)

Abbreviation AdvisorLink := (string * json)%type.

Definition degree_advisors (degree : json) : result (list AdvisorLink) :=
  advised_by <- py_get degree "advised by" (JObj []) ;;
  py_items advised_by.

Definition extract_advisor_info (academic_data : json)
  : result (list AdvisorLink) :=
  has <- py_in "MGP_academic" academic_data ;;
  if has then
    academic <- py_getitem academic_data "MGP_academic" ;;
    student_data <- py_get academic "student_data" (JObj []) ;;
    degrees <- py_get student_data "degrees" (JList []) ;;
    ds <- py_iter degrees ;;
    extend_each degree_advisors ds
  else Ok [].

(** ** Console output and the monad of code that prints and may raise *)

Inductive event :=
| ErroAoBuscar (mgp_id : json) (e : exn).

Definition io (A : Type) : Type := list event * result A.

Definition io_ret {A} (a : A) : io A := ([], Ok a).

Definition io_bind {A B} (c : io A) (k : A -> io B) : io B :=
  match c with
  | (out, Ok a) => let (out', r) := k a in (out ++ out', r)
  | (out, Raise e) => (out, Raise e)
  end.

Notation "x <~ c ;; k" := (io_bind c (fun x => k))
  (at level 61, c at next level, right associativity).

Definition print (ev : event) : io unit := ([ev], Ok tt).

Definition lift {A} (c : result A) : io A := ([], c).

Definition io_try {A} (body : io A) (catches : exn -> bool)
  (handler : exn -> io A) : io A :=
  match body with
  | (out, Ok a) => (out, Ok a)
  | (out, Raise e) =>
      if catches e then let (out', r) := handler e in (out ++ out', r)
      else (out, Raise e)
  end.

(** ** Acquisition

    [get_mathematician_details] is one lookup at the remote directory
    service ([requests.get], [raise_for_status], [response.json()]): what
    it returns or raises for an id is the service's answer. *)

Section Fetch.

Variable get_mathematician_details : json -> result json.

Definition fetch_mathematician_parallel (mgp_id : json) : io json :=
  io_try (lift (get_mathematician_details mgp_id)) is_Exception
    (fun e => _ <~ print (ErroAoBuscar mgp_id e) ;; io_ret JNull).

(** Every id is submitted to the pool before the loop reads a result,
    and leaving the [with] block waits for every worker: each worker
    runs [fetch_mathematician_parallel] on its id, whatever happens in
    the loop.  [completed] lists the submitted ids in the order their
    futures complete; what the workers print is taken in that order. *)
Definition workers_output (completed : list json) : list event :=
  flat_map (fun mgp_id => fst (fetch_mathematician_parallel mgp_id)) completed.

(** The loop over [as_completed(future_to_id)]: [future.result()]
    returns what the worker's call returned, or raises the error that
    the call did not catch, which the future holds. *)
Fixpoint collect_results (completed : list json)
  (mathematicians_data : list json) : result (list json) :=
  match completed with
  | [] => Ok mathematicians_data
  | mgp_id :: rest =>
      result <- snd (fetch_mathematician_parallel mgp_id) ;;
      collect_results rest
        (if truthy result then mathematicians_data ++ [result]
         else mathematicians_data)
  end.

Definition collect_completed (completed : list json)
  (mathematicians_data : list json) : io (list json) :=
  (workers_output completed, collect_results completed mathematicians_data).

(** One future per element of [ids]; the pool completes them in some
    order, so a run of the function is the workers and the collection
    loop over some permutation of [ids]. *)
Inductive fetch_all_mathematicians_parallel (ids : list json)
  : io (list json) -> Prop :=
| completion_order (completed : list json) :
    Permutation ids completed ->
    fetch_all_mathematicians_parallel ids (collect_completed completed []).

(** The sequential loop of [main] (choice 2). *)
Fixpoint fetch_sequential (brazil_ids : list json)
  (mathematicians_data : list json) : io (list json) :=
  match brazil_ids with
  | [] => io_ret mathematicians_data
  | mgp_id :: rest =>
      mathematicians_data' <~
        io_try
          (data <~ lift (get_mathematician_details mgp_id) ;;
           io_ret (mathematicians_data ++ [data]))
          is_Exception
          (fun e => _ <~ print (ErroAoBuscar mgp_id e) ;;
                    io_ret mathematicians_data) ;;
      fetch_sequential rest mathematicians_data'
  end.

(** The records and the reports of a batch that catches every error,
    id by id; [keep] tells which answers the mode retains. *)
Definition answers (keep : json -> bool) (ids : list json) : list json :=
  flat_map (fun mgp_id => match get_mathematician_details mgp_id with
                          | Ok r => if keep r then [r] else []
                          | Raise _ => []
                          end) ids.

Definition reports (ids : list json) : list event :=
  flat_map (fun mgp_id => match get_mathematician_details mgp_id with
                          | Ok _ => []
                          | Raise e => [ErroAoBuscar mgp_id e]
                          end) ids.

(** Whether the fetch of an id gives an answer *)
Definition succeeded (mgp_id : json) : bool :=
  match get_mathematician_details mgp_id with
  | Ok _ => true
  | Raise _ => false
  end.

(** What a batch over [ids] owes its caller: it returns, every record
    it returns is the answer to one of the ids, there are at most as
    many records as ids, every failed id is reported with its error, and
    the answer to every other id is among the records ([keep] tells
    which answers the mode retains). *)
Definition batch_contract (keep : json -> bool) (ids : list json)
  (run : io (list json)) : Prop :=
  exists (out : list event) (data : list json),
    run = (out, Ok data)
    /\ (forall r, In r data ->
          exists mgp_id, In mgp_id ids /\ get_mathematician_details mgp_id = Ok r)
    /\ List.length data <= List.length ids
    /\ (forall mgp_id e,
          In mgp_id ids -> get_mathematician_details mgp_id = Raise e ->
          In (ErroAoBuscar mgp_id e) out)
    /\ (forall mgp_id r,
          In mgp_id ids -> get_mathematician_details mgp_id = Ok r ->
          keep r = true -> In r data).

End Fetch.

(** ** The cache file

    [load_cache] sees the file through [open] and [json.load]; a state of
    the file is what those two make of it. *)

Inductive cache_file :=
| Missing              (* no file: [open] raises FileNotFoundError *)
| Unreadable           (* exists, not openable: [open] raises PermissionError *)
| Undecodable          (* bytes that are not UTF-8: reading raises UnicodeDecodeError *)
| Corrupt              (* text that is no JSON document: [json.load] raises JSONDecodeError *)
| Holds (data : json). (* text that is the JSON document of [data] *)

Definition open_r (f : cache_file) : result cache_file :=
  match f with
  | Missing => Raise FileNotFoundError
  | Unreadable => Raise PermissionError
  | _ => Ok f
  end.

Definition json_load (f : cache_file) : result json :=
  match f with
  | Holds data => Ok data
  | Undecodable => Raise UnicodeDecodeError
  | _ => Raise JSONDecodeError
  end.

Definition load_cache (filename : cache_file) : result json :=
  try_except
    (f <- open_r filename ;; json_load f)
    is_FileNotFoundError
    (fun _ => Ok JNull).

(** ** Saving the cache

    [json.dump(data, f, ensure_ascii=False, indent=2)] writes the chunks
    of the encoder's [iterencode] one [f.write] at a time.  The encoder
    below follows [json.encoder] for the values of the model. *)

Infix "^^" := String.append (at level 60, right associativity).

Definition quote : string := String "034" EmptyString.
Definition backslash : string := String "092" EmptyString.
Definition newline : string := String "010" EmptyString.

Definition hex_digit (n : nat) : string :=
  String (nth n (list_ascii_of_string "0123456789abcdef") "0"%char) EmptyString.

(** The replacement of one character in [py_encode_basestring] *)
Definition escape_char (c : ascii) : string :=
  let n := nat_of_ascii c in
  if Nat.eqb n 34 then backslash ^^ quote
  else if Nat.eqb n 92 then backslash ^^ backslash
  else if Nat.eqb n 8 then backslash ^^ "b"
  else if Nat.eqb n 12 then backslash ^^ "f"
  else if Nat.eqb n 10 then backslash ^^ "n"
  else if Nat.eqb n 13 then backslash ^^ "r"
  else if Nat.eqb n 9 then backslash ^^ "t"
  else if Nat.ltb n 32 then
    backslash ^^ "u00" ^^ hex_digit (Nat.div n 16) ^^ hex_digit (Nat.modulo n 16)
  else String c EmptyString.

Fixpoint escape (s : string) : string :=
  match s with
  | EmptyString => EmptyString
  | String c s' => escape_char c ^^ escape s'
  end.

Definition encoder (s : string) : string := quote ^^ escape s ^^ quote.

Definition intstr (z : Z) : string := NilZero.string_of_int (Z.to_int z).

Fixpoint indent (level : nat) : string :=
  match level with
  | O => EmptyString
  | S l => "  " ^^ indent l
  end.

(** The values [_iterencode] yields in one piece *)
Definition atom (v : json) : option string :=
  match v with
  | JNull => Some "null"
  | JBool true => Some "true"
  | JBool false => Some "false"
  | JInt z => Some (intstr z)
  | JStr s => Some (encoder s)
  | JList _ | JObj _ => None
  end.

Fixpoint iterencode (level : nat) (o : json) : list string :=
  match o with
  | JList [] => ["[]"]
  | JList lst =>
      let newline_indent := newline ^^ indent (S level) in
      (fix items (first : bool) (lst : list json) : list string :=
         match lst with
         | [] => []
         | value :: lst' =>
             let buf := if first then "[" ^^ newline_indent
                        else "," ^^ newline_indent in
             match atom value with
             | Some a => [buf ^^ a]
             | None => buf :: iterencode (S level) value
             end ++ items false lst'
         end) true lst
      ++ [newline ^^ indent level; "]"]
  | JObj [] => ["{}"]
  | JObj dct =>
      let newline_indent := newline ^^ indent (S level) in
      "{" :: newline_indent ::
      (fix items (first : bool) (dct : list (string * json)) : list string :=
         match dct with
         | [] => []
         | (key, value) :: dct' =>
             (if first then [] else ["," ^^ newline_indent])
             ++ [encoder key; ": "]
             ++ match atom value with
                | Some a => [a]
                | None => iterencode (S level) value
                end
             ++ items false dct'
         end) true dct
      ++ [newline ^^ indent level; "}"]
  | _ => match atom o with Some a => [a] | None => [] end
  end.

Definition dumps (data : json) : string :=
  String.concat "" (iterencode 0 data).

(** The file under [CACHE_FILE]: its text, if it exists.  The operations
    of [save_cache] on it, in program order: [open(filename, 'w')]
    creates or truncates the file, every chunk is appended, leaving the
    [with] block closes it. *)
Definition disk : Type := option string.

Inductive file_op :=
| OpenW
| Write (chunk : string)
| Close.

Definition step (d : disk) (op : file_op) : disk :=
  match op with
  | OpenW => Some ""
  | Write chunk =>
      match d with
      | Some text => Some (text ^^ chunk)
      | None => None
      end
  | Close => d
  end.

Definition run (ops : list file_op) (d : disk) : disk := fold_left step ops d.

Definition save_cache (data : json) : list file_op :=
  OpenW :: map Write (iterencode 0 data) ++ [Close].

(** A save that is interrupted after its first [k] operations *)
Definition save_cache_interrupted (k : nat) (data : json) (d : disk) : disk :=
  run (firstn k (save_cache data)) d.

Definition sample_snapshot : json :=
  JObj [("ids", JList [JInt 7; JInt 8]);
        ("data", JList [JObj [("MGP_academic", JObj [("ID", JStr "7")])]]);
        ("note", JStr ("a" ^^ quote ^^ newline ^^ "b"))].

(** ** Ranking

    A [Counter] is a dict from key to count, in insertion order. *)

Definition Counter : Type := list (string * Z).

(** [c[k] += 1]: a missing key counts as 0 and is inserted at the end. *)
Fixpoint increment (k : string) (c : Counter) : Counter :=
  match c with
  | [] => [(k, 1%Z)]
  | (k', n) :: c' =>
      if k =? k' then (k', (n + 1)%Z) :: c' else (k', n) :: increment k c'
  end.

(** [d[k] = v] *)
Fixpoint setitem {V} (k : string) (v : V) (d : list (string * V))
  : list (string * V) :=
  match d with
  | [] => [(k, v)]
  | (k', v') :: d' =>
      if k =? k' then (k', v) :: d' else (k', v') :: setitem k v d'
  end.

(** [sorted(l, key=key, reverse=True)]: Python's sort is stable, also
    with [reverse=True]: elements with equal keys keep their order. *)
Fixpoint insert_desc {A} (key : A -> Z) (x : A) (l : list A) : list A :=
  match l with
  | [] => [x]
  | y :: l' =>
      if (key x <? key y)%Z then y :: insert_desc key x l' else x :: y :: l'
  end.

Fixpoint sorted_desc {A} (key : A -> Z) (l : list A) : list A :=
  match l with
  | [] => []
  | x :: l' => insert_desc key x (sorted_desc key l')
  end.

(** [Counter.most_common(n)] is [heapq.nlargest(n, items, key=count)],
    which is [sorted(items, key=count, reverse=True)[:n]]. *)
Definition most_common (n : nat) (c : Counter) : Counter :=
  firstn n (sorted_desc snd c).

Definition names : Type := list (string * json).

Definition count_link (st : Counter * names) (link : AdvisorLink)
  : Counter * names :=
  (increment (fst link) (fst st), setitem (fst link) (snd link) (snd st)).

Fixpoint count_advisors (mathematicians_data : list json)
  (st : Counter * names) : result (Counter * names) :=
  match mathematicians_data with
  | [] => Ok st
  | data :: rest =>
      advisors <- extract_advisor_info data ;;
      count_advisors rest (fold_left count_link advisors st)
  end.

(** [format(value, "40s")], the name column of a row of the table.
    The presentation type [s] is for [str] alone: [int.__format__],
    which a [bool] has too, raises ValueError for it; [None], a list and
    a dict have [object.__format__], which raises TypeError for every
    format specification that is not empty.  The column shows the
    string, padded with spaces to 40 characters; a row keeps the
    string. *)
Definition format_s (value : json) : result string :=
  match value with
  | JStr s => Ok s
  | JInt _ | JBool _ => Raise ValueError
  | JNull | JList _ | JObj _ => Raise TypeError
  end.

(** The loop that prints the table, a row at a time: the rows printed
    (advisor id, name, count), and whether the loop ended or raised.
    The count is an [int], which [{count:3d}] always formats. *)
Fixpoint print_rows (advisor_names : names) (ranking : Counter)
  : list (string * string * Z) * result unit :=
  match ranking with
  | [] => ([], Ok tt)
  | (advisor_id, count) :: rest =>
      match format_s match lookup advisor_id advisor_names with
                     | Some name => name
                     | None => JStr "Nome desconhecido"
                     end with
      | Ok name =>
          let (out, r) := print_rows advisor_names rest in
          ((advisor_id, name, count) :: out, r)
      | Raise e => ([], Raise e)
      end
  end.

(** Step 3 of [main]: the rows of the top-10 table that are printed,
    and how the step ends *)
Definition top_advisors (mathematicians_data : list json)
  : list (string * string * Z) * result unit :=
  match count_advisors mathematicians_data ([], []) with
  | Ok st => print_rows (snd st) (most_common 10 (fst st))
  | Raise e => ([], Raise e)
  end.

(** *** The record with most descendants *)

Definition as_number (v : json) : option Z :=
  match v with
  | JInt z => Some z
  | JBool b => Some (if b then 1 else 0)%Z
  | _ => None
  end.

(** [max_descendants] starts at 0 and is only replaced by a count that
    compared greater than it, so it is a number; the state keeps the
    integer it equals.  Comparing anything but a number with a number
    raises TypeError. *)
Definition scan_record (st : Z * option json) (data : json)
  : result (Z * option json) :=
  has <- py_in "MGP_academic" data ;;
  if has then
    academic <- py_getitem data "MGP_academic" ;;
    student_data <- py_get academic "student_data" (JObj []) ;;
    descendants <- py_get student_data "descendants" (JObj []) ;;
    descendant_count <- py_get descendants "descendant_count" (JInt 0) ;;
    match as_number descendant_count with
    | Some n => if (n >? fst st)%Z then Ok (n, Some academic) else Ok st
    | None => Raise TypeError
    end
  else Ok st.

Fixpoint scan_descendants (mathematicians_data : list json)
  (st : Z * option json) : result (Z * option json) :=
  match mathematicians_data with
  | [] => Ok st
  | data :: rest =>
      st' <- scan_record st data ;;
      scan_descendants rest st'
  end.

(** What step 5 reports: the top record and its count, when
    [top_mathematician] is truthy. *)
Definition most_descendants (mathematicians_data : list json)
  : result (option (json * Z)) :=
  st <- scan_descendants mathematicians_data (0%Z, None) ;;
  match snd st with
  | Some top_mathematician =>
      if truthy top_mathematician then Ok (Some (top_mathematician, fst st))
      else Ok None
  | None => Ok None
  end.

(** *** Records without advisees *)

Definition is_placeholder (advisees : json) : bool :=
  match advisees with
  | JList [first] => is_str "" first
  | _ => false
  end.

Definition no_advisees_test (advisees : json) : bool :=
  negb (truthy advisees) || is_placeholder advisees.

Definition record_advisees (data : json) : result (option (json * json)) :=
  has <- py_in "MGP_academic" data ;;
  if has then
    academic <- py_getitem data "MGP_academic" ;;
    student_id <- py_get academic "ID" JNull ;;
    student_data <- py_get academic "student_data" (JObj []) ;;
    descendants <- py_get student_data "descendants" (JObj []) ;;
    advisees <- py_get descendants "advisees" (JObj []) ;;
    Ok (Some (student_id, advisees))
  else Ok None.

Fixpoint no_advisees (mathematicians_data : list json) (acc : list json)
  : result (list json) :=
  match mathematicians_data with
  | [] => Ok acc
  | data :: rest =>
      r <- record_advisees data ;;
      match r with
      | Some (student_id, advisees) =>
          if no_advisees_test advisees then no_advisees rest (acc ++ [student_id])
          else no_advisees rest acc
      | None => no_advisees rest acc
      end
  end.

(** ** The genealogy graph

    [networkx] keeps a graph as a dict of adjacency dicts in insertion
    order.  A node is a hashable value, compared with Python's [==]: the
    integers (with [True == 1] and [False == 0]) and the strings.  [None]
    is refused as a node and a list or a dict is not hashable. *)

Inductive node :=
| NInt (z : Z)
| NStr (s : string).

Definition node_eqb (a b : node) : bool :=
  match a, b with
  | NInt x, NInt y => (x =? y)%Z
  | NStr s, NStr t => s =? t
  | _, _ => false
  end.

Definition as_node (v : json) : result node :=
  match v with
  | JNull => Raise ValueError
  | JBool b => Ok (NInt (if b then 1 else 0))
  | JInt z => Ok (NInt z)
  | JStr s => Ok (NStr s)
  | JList _ | JObj _ => Raise TypeError
  end.

Definition adjacency : Type := list (node * list node).

Definition DiGraph : Type := adjacency.   (* node |-> its successors *)
Definition Graph : Type := adjacency.     (* node |-> its neighbours *)

Definition mem (n : node) (l : list node) : bool := existsb (node_eqb n) l.

Definition has_node (G : adjacency) (n : node) : bool := mem n (map fst G).

Definition add_node (G : adjacency) (n : node) : adjacency :=
  if has_node G n then G else G ++ [(n, [])].

(** [G[u][v] = ...] for a node [u] of the graph *)
Fixpoint add_adj (u v : node) (G : adjacency) : adjacency :=
  match G with
  | [] => []
  | (n, vs) :: G' =>
      if node_eqb n u then (n, if mem v vs then vs else vs ++ [v]) :: G'
      else (n, vs) :: add_adj u v G'
  end.

(** [DiGraph.add_edge(u, v)]: both ends become nodes, [u] first. *)
Definition add_edge (G : DiGraph) (u_of_edge v_of_edge : json)
  : result DiGraph :=
  u <- as_node u_of_edge ;;
  v <- as_node v_of_edge ;;
  Ok (add_adj u v (add_node (add_node G u) v)).

Fixpoint add_edges (G : DiGraph) (advisors : list AdvisorLink)
  (student_id : json) : result DiGraph :=
  match advisors with
  | [] => Ok G
  | (advisor_id, _) :: rest =>
      G' <- add_edge G (JStr advisor_id) student_id ;;
      add_edges G' rest student_id
  end.

Fixpoint build_graph (mathematicians_data : list json) (G : DiGraph)
  : result DiGraph :=
  match mathematicians_data with
  | [] => Ok G
  | data :: rest =>
      has <- py_in "MGP_academic" data ;;
      if has then
        academic <- py_getitem data "MGP_academic" ;;
        student_id <- py_get academic "ID" JNull ;;
        advisors <- extract_advisor_info data ;;
        G' <- add_edges G advisors student_id ;;
        build_graph rest G'
      else build_graph rest G
  end.

Definition has_edge (G : DiGraph) (u v : node) : bool :=
  existsb (fun p => node_eqb (fst p) u && mem v (snd p)) G.

(** [G.to_undirected()]: the nodes in the same order, and for every
    directed edge both adjacency entries. *)
Definition add_undirected (H : Graph) (u v : node) : Graph :=
  add_adj v u (add_adj u v H).

Definition to_undirected (G : DiGraph) : Graph :=
  fold_left
    (fun H p => fold_left (fun H v => add_undirected H (fst p) v) (snd p) H)
    G
    (map (fun p => (fst p, [])) G).

Definition neighbours (H : Graph) (v : node) : list node :=
  match find (fun p => node_eqb (fst p) v) H with
  | Some p => snd p
  | None => []
  end.

(** [G.degree]: a self-loop counts twice. *)
Definition degree (p : node * list node) : nat :=
  List.length (snd p) + (if mem (fst p) (snd p) then 1 else 0).

(** [nx.isolates(G)]: the nodes of degree 0 *)
Definition isolates (H : Graph) : list node :=
  map fst (filter (fun p => Nat.eqb (degree p) 0) H).

(** [_plain_bfs]: the inner loop over the neighbours of one node, the
    loop over one level, and the loop over the levels.  The number of
    levels is at most the number of nodes, which is the fuel. *)
Fixpoint visit (ws seen nextlevel : list node) : list node * list node :=
  match ws with
  | [] => (seen, nextlevel)
  | w :: ws' =>
      if mem w seen then visit ws' seen nextlevel
      else visit ws' (seen ++ [w]) (nextlevel ++ [w])
  end.

Fixpoint visit_level (H : Graph) (thislevel seen nextlevel : list node)
  : list node * list node :=
  match thislevel with
  | [] => (seen, nextlevel)
  | v :: rest =>
      let (seen', nextlevel') := visit (neighbours H v) seen nextlevel in
      visit_level H rest seen' nextlevel'
  end.

Fixpoint plain_bfs (fuel : nat) (H : Graph) (seen nextlevel : list node)
  : list node :=
  match fuel with
  | O => seen
  | S fuel' =>
      match nextlevel with
      | [] => seen
      | _ =>
          let (seen', nextlevel') := visit_level H nextlevel seen [] in
          plain_bfs fuel' H seen' nextlevel'
      end
  end.

(** [nx.connected_components(G)] *)
Fixpoint components_from (H : Graph) (vs seen : list node)
  : list (list node) :=
  match vs with
  | [] => []
  | v :: rest =>
      if mem v seen then components_from H rest seen
      else
        let c := plain_bfs (List.length H) H [v] [v] in
        c :: components_from H rest (seen ++ c)
  end.

Definition connected_components (H : Graph) : list (list node) :=
  components_from H (map fst H) [].

Definition len {A} (l : list A) : Z := Z.of_nat (List.length l).

(** *** [len(largest_component) / len(G_undirected) > 0.5]

    [/] on two positive integers is the binary64 number nearest to the
    quotient, ties to even.  A positive binary64 number in the normal
    range is [mantissa * 2 ^ exponent] with a mantissa of 53 bits. *)

Record float := { mantissa : Z; exponent : Z }.

Definition scaled_num (a e : Z) : Z := (a * 2 ^ Z.max 0 (- e))%Z.
Definition scaled_den (b e : Z) : Z := (b * 2 ^ Z.max 0 e)%Z.

(** The quotient scaled by [2 ^ - e], rounded to an integer, ties to even *)
Definition round_quotient (a b e : Z) : Z :=
  let n := scaled_num a e in
  let d := scaled_den b e in
  let q := (n / d)%Z in
  let r := (n mod d)%Z in
  if (d <? 2 * r)%Z then (q + 1)%Z
  else if (d =? 2 * r)%Z && Z.odd q then (q + 1)%Z
  else q.

Definition py_truediv (a b : Z) : float :=
  let e0 := (Z.log2 a - Z.log2 b - 52)%Z in
  let e := if (2 ^ 52 <=? scaled_num a e0 / scaled_den b e0)%Z
           then e0 else (e0 - 1)%Z in
  {| mantissa := round_quotient a b e; exponent := e |}.

Definition float_gtb (x y : float) : bool :=
  let e := Z.min (exponent x) (exponent y) in
  (mantissa y * 2 ^ (exponent y - e) <? mantissa x * 2 ^ (exponent x - e))%Z.

Definition half : float := {| mantissa := 2 ^ 52; exponent := -53 |}.

(** The giant-component test of step 6; nothing is tested on an empty
    graph. *)
Definition giant_component (H : Graph) : option bool :=
  if (0 <? len H)%Z then
    match sorted_desc len (connected_components H) with
    | largest_component :: _ =>
        Some (float_gtb (py_truediv (len largest_component) (len H)) half)
    | [] => None
    end
  else None.

(** The structural figures of step 6 *)
Definition isolated_nodes (mathematicians_data : list json)
  : result (list node) :=
  G <- build_graph mathematicians_data [] ;;
  Ok (isolates (to_undirected G)).

Definition component_sizes (mathematicians_data : list json)
  : result (list Z) :=
  G <- build_graph mathematicians_data [] ;;
  Ok (map len (sorted_desc len (connected_components (to_undirected G)))).

(** *** The five records of the end-to-end scenario: A advised B and C,
    B advised D, E has no link. *)

Definition record (id : string) (advised_by advisees : list (string * json))
  (descendant_count : Z) : json :=
  JObj [("MGP_academic",
         JObj [("ID", JStr id);
               ("given_name", JStr id);
               ("family_name", JStr "Silva");
               ("student_data",
                JObj [("degrees", JList [JObj [("advised by", JObj advised_by)]]);
                      ("descendants",
                       JObj [("advisees", JObj advisees);
                             ("descendant_count", JInt descendant_count)])])])].

(** A record without advisees *)
Definition person (id : string) (advised_by : list (string * json)) : json :=
  record id advised_by [] 0.

Definition scenario : list json :=
  [record "A" [] [("B", JStr "Bia"); ("C", JStr "Caio")] 3;
   record "B" [("A", JStr "Ana")] [("D", JStr "Davi")] 1;
   person "C" [("A", JStr "Ana")];
   person "D" [("B", JStr "Bia")];
   person "E" []].

(** A directory service answering for a handful of ids *)
Definition sample_service (mgp_id : json) : result json :=
  match mgp_id with
  | JInt 1 => Ok (person "A" [])
  | JInt 2 => Raise (HTTPError 500)
  | JInt 3 => Ok (person "B" [("A", JStr "Ana")])
  | JInt 4 => Ok JNull
  | JInt 5 => Ok (JObj [])
  | _ => Raise ConnectionError
  end.

(** ** Notions the properties are stated with *)

(** [G'] has every node and every edge of [G]. *)
Definition extends (G G' : DiGraph) : Prop :=
  (forall x, has_node G x = true -> has_node G' x = true)
  /\ (forall x y, has_edge G x y = true -> has_edge G' x y = true).

(** A graph whose nodes all come from its edges: the keys are distinct,
    the ends of every edge are nodes, and every node is an end of some
    edge. *)
Definition linked (G : DiGraph) : Prop :=
  NoDup (map fst G)
  /\ (forall u v, has_edge G u v = true ->
                  has_node G u = true /\ has_node G v = true)
  /\ (forall n, has_node G n = true ->
                exists m, has_edge G n m = true \/ has_edge G m n = true).

(** The directed edges, in the order [to_undirected] visits them *)
Definition edges (G : adjacency) : list (node * node) :=
  flat_map (fun p => map (fun v => (fst p, v)) (snd p)) G.

(** [n] has an adjacency entry with a neighbour. *)
Definition nonempty_at (H : adjacency) (n : node) : Prop :=
  exists ns, In (n, ns) H /\ ns <> [].

(** ** Reading the loops record by record

    The analysis loops read a few fields of each record and then update
    their state.  The definitions below name what is read, so that the
    properties can speak of the records in input order. *)

Definition option_list {A} (o : option A) : list A :=
  match o with
  | Some a => [a]
  | None => []
  end.

(** The academic part and the descendant count of a record, as step 5
    reads them *)
Definition record_count (data : json) : result (option (json * Z)) :=
  has <- py_in "MGP_academic" data ;;
  if has then
    academic <- py_getitem data "MGP_academic" ;;
    student_data <- py_get academic "student_data" (JObj []) ;;
    descendants <- py_get student_data "descendants" (JObj []) ;;
    descendant_count <- py_get descendants "descendant_count" (JInt 0) ;;
    match as_number descendant_count with
    | Some n => Ok (Some (academic, n))
    | None => Raise TypeError
    end
  else Ok None.

(** The update of the scan for one such entry *)
Definition scan_step (st : Z * option json) (entry : json * Z)
  : Z * option json :=
  if (snd entry >? fst st)%Z then (snd entry, Some (fst entry)) else st.

Definition record_counts (mathematicians_data : list json)
  : result (list (json * Z)) :=
  extend_each (fun data => r <- record_count data ;; Ok (option_list r))
    mathematicians_data.

(** The subject id and the advisees of every record with an academic
    part *)
Definition records_advisees (mathematicians_data : list json)
  : result (list (json * json)) :=
  extend_each (fun data => r <- record_advisees data ;; Ok (option_list r))
    mathematicians_data.

Definition is_collection (v : json) : bool :=
  match v with
  | JList _ | JObj _ => true
  | _ => false
  end.

(** An advisee collection that is empty, or the list with the empty
    string as its only element *)
Definition empty_or_placeholder (advisees : json) : bool :=
  match advisees with
  | JObj [] => true
  | JList [] => true
  | JList [JStr s] => s =? ""
  | _ => false
  end.

Definition graduate (id : string) (advisees descendant_count : json) : json :=
  JObj [("MGP_academic",
         JObj [("ID", JStr id);
               ("student_data",
                JObj [("descendants",
                       JObj [("advisees", advisees);
                             ("descendant_count", descendant_count)])])])].

Definition sample_graduates : list json :=
  [graduate "1" (JObj []) (JInt 0);
   graduate "2" (JList [JStr ""]) (JInt 3);
   JObj [("error", JStr "not found")];
   graduate "3" (JObj [("1", JStr "Ana")]) (JInt 3);
   graduate "4" (JList []) (JInt 2)].

Definition sample_counts : list (json * Z) :=
  Eval cbv in
    match record_counts sample_graduates with
    | Ok entries => entries
    | Raise _ => []
    end.

Definition sample_advisees : list (json * json) :=
  Eval cbv in
    match records_advisees sample_graduates with
    | Ok entries => entries
    | Raise _ => []
    end.

(** ** Order of the rows of a ranking *)

(** [x] stands before [y] in the list. *)
Inductive precedes {A} (x y : A) : list A -> Prop :=
| precedes_here (l : list A) : In y l -> precedes x y (x :: l)
| precedes_later (z : A) (l : list A) : precedes x y l -> precedes x y (z :: l).

(** A list in descending order of [key] *)
Definition descending {A} (key : A -> Z) : list A -> Prop :=
  StronglySorted (fun x y => (key y <= key x)%Z).

(** All links of all records, in input order *)
Definition all_links (mathematicians_data : list json) : result (list AdvisorLink) :=
  extend_each extract_advisor_info mathematicians_data.

(** [x] was encountered before [y]: the first occurrence of [x] comes
    before every occurrence of [y]. *)
Definition first_seen_before (x y : string) (ids : list string) : Prop :=
  exists l1 l2, ids = l1 ++ x :: l2 /\ ~ In x l1 /\ ~ In y l1 /\ x <> y.

(** The number of links with advisor [id], and the name on the last of
    them *)
Definition occurrences (id : string) (links : list AdvisorLink) : Z :=
  len (filter (fun link => fst link =? id) links).

Definition last_name (id : string) (links : list AdvisorLink) : option json :=
  lookup id (rev links).

Definition count_of (id : string) (c : Counter) : Z :=
  match lookup id c with Some n => n | None => 0%Z end.

(** The counter after the links, without the names *)
Definition tally (links : list AdvisorLink) (c : Counter) : Counter :=
  fold_left (fun c link => increment (fst link) c) links c.

(** The entry of the ranking that a row of the table shows, with the
    name looked up in [advisor_names] *)
Definition row_of (d : names) (row : string * Z) : string * json * Z :=
  (fst row,
   match lookup (fst row) d with
   | Some name => name
   | None => JStr "Nome desconhecido"
   end,
   snd row).

(** The ranking that step 3 goes through, from the links *)
Definition table_of (links : list AdvisorLink) : list (string * json * Z) :=
  map (row_of (snd (fold_left count_link links ([], []))))
      (most_common 10 (tally links [])).

(** A printed row, with its name as the JSON string it came from *)
Definition printed (row : string * string * Z) : string * json * Z :=
  (fst (fst row), JStr (snd (fst row)), snd row).

(** Two advisors, of whom the second has [null] for a name *)
Definition unnamed_records : list json :=
  [person "s1" [("X", JStr "Xavier")];
   person "s2" [("X", JStr "Xavier"); ("Y", JNull)]].

(** Seven records: X and Y are advisors three times each, X first. *)
Definition tie_records : list json :=
  [person "s1" [("X", JStr "Xavier")];
   person "s2" [("Y", JStr "Yara")];
   person "s3" [("Y", JStr "Yara")];
   person "s4" [("X", JStr "Xavier")];
   person "s5" [("Z", JStr "Zeca"); ("Y", JStr "Yara")];
   person "s6" [("X", JStr "X. Lima")];
   person "s7" []].

Definition tie_links : list AdvisorLink :=
  Eval cbv in
    match all_links tie_records with
    | Ok links => links
    | Raise _ => []
    end.

(** Four nodes in two components of two, and four nodes of which three
    are connected *)
Definition balanced_graph : Graph :=
  [(NInt 1, [NInt 2]); (NInt 2, [NInt 1]);
   (NInt 3, [NInt 4]); (NInt 4, [NInt 3])].

Definition majority_graph : Graph :=
  [(NInt 1, [NInt 2; NInt 3]); (NInt 2, [NInt 1]);
   (NInt 3, [NInt 1]); (NInt 4, [])].

(** ** The rest of the pipeline *)

(** *** The record fetcher

    A reply of the directory service as [requests] hands it over: the
    status code and what [response.json()] makes of the body. *)

Record response := { status_code : Z; json_body : result json }.

(** [response.raise_for_status()]: the client and server error codes *)
Definition raise_for_status (r : response) : result unit :=
  if ((400 <=? status_code r) && (status_code r <? 600))%Z
  then Raise (HTTPError (status_code r))
  else Ok tt.

(** [get_mathematician_details] and [get_mathematician_range], given what
    [requests.get] answers for their URL *)
Definition get_mathematician_details (reply : result response) : result json :=
  response <- reply ;;
  _ <- raise_for_status response ;;
  json_body response.

Definition get_mathematician_range (reply : result response) : result json :=
  response <- reply ;;
  _ <- raise_for_status response ;;
  json_body response.

Definition is_list (v : json) : bool :=
  match v with
  | JList _ => true
  | _ => false
  end.

(** [id_list[0]] under the guard [if id_list]: a truthy value is a
    non-empty sequence or mapping, a true boolean or a non-zero number. *)
Definition first_of (id_list : json) : result json :=
  match id_list with
  | JList (x :: _) => Ok x
  | JStr s =>
      match characters s with
      | c :: _ => Ok (JStr c)
      | [] => Raise TypeError
      end
  | JObj _ => Raise KeyError
  | _ => Raise TypeError
  end.

(** [[id_list[0] for id_list in ids if id_list]] *)
Fixpoint first_ids (ids : list json) : result (list json) :=
  match ids with
  | [] => Ok []
  | id_list :: rest =>
      if truthy id_list then
        x <- first_of id_list ;;
        xs <- first_ids rest ;;
        Ok (x :: xs)
      else first_ids rest
  end.

Definition get_mathematician_ids_by_country (reply : result response)
  : result json :=
  response <- reply ;;
  _ <- raise_for_status response ;;
  ids <- json_body response ;;
  if negb (truthy ids) then Ok (JList [])
  else
    first <- first_of ids ;;
    if is_list first then
      l <- py_iter ids ;;
      xs <- first_ids l ;;
      Ok (JList xs)
    else Ok ids.

(** *** The other extractors *)

Definition extract_advisees_info (academic_data : json)
  : result (list (string * json)) :=
  has <- py_in "MGP_academic" academic_data ;;
  if has then
    academic <- py_getitem academic_data "MGP_academic" ;;
    student_data <- py_get academic "student_data" (JObj []) ;;
    descendants <- py_get student_data "descendants" (JObj []) ;;
    advisees_dict <- py_get descendants "advisees" (JObj []) ;;
    py_items advisees_dict
  else Ok [].

Definition degree_schools (degree : json) : result (list json) :=
  schools <- py_get degree "schools" (JList []) ;;
  py_iter schools.

Definition extract_school_info (academic_data : json) : result (list json) :=
  has <- py_in "MGP_academic" academic_data ;;
  if has then
    academic <- py_getitem academic_data "MGP_academic" ;;
    student_data <- py_get academic "student_data" (JObj []) ;;
    degrees <- py_get student_data "degrees" (JList []) ;;
    ds <- py_iter degrees ;;
    extend_each degree_schools ds
  else Ok [].

(** *** The universities table (step 4) *)

(** [school_count[school] += 1] under the filter: the key has to be
    hashable, and a list or a dict is not. *)
Definition count_school (school_count : Counter) (school : json)
  : result Counter :=
  brazil <- py_in "Brazil" school ;;
  keep <- (if brazil then Ok true else py_in "Brasil" school) ;;
  if keep then
    match school with
    | JStr s => Ok (increment s school_count)
    | _ => Raise TypeError
    end
  else Ok school_count.

Fixpoint count_each (schools : list json) (school_count : Counter)
  : result Counter :=
  match schools with
  | [] => Ok school_count
  | school :: rest =>
      school_count' <- count_school school_count school ;;
      count_each rest school_count'
  end.

Fixpoint count_schools (mathematicians_data : list json)
  (school_count : Counter) : result Counter :=
  match mathematicians_data with
  | [] => Ok school_count
  | data :: rest =>
      schools <- extract_school_info data ;;
      school_count' <- count_each schools school_count ;;
      count_schools rest school_count'
  end.

Definition top_schools (mathematicians_data : list json)
  : result (list (string * Z)) :=
  school_count <- count_schools mathematicians_data [] ;;
  Ok (most_common 10 school_count).

(** *** The export

    [len(v)]: the number of entries of a list or a dict, of characters of
    a string (a character of the UTF-8 text starts at every byte that is
    not a continuation byte). *)

Definition py_len (v : json) : result Z :=
  match v with
  | JList l => Ok (len l)
  | JObj kvs => Ok (len kvs)
  | JStr s => Ok (len (filter starts_character (list_ascii_of_string s)))
  | _ => Raise TypeError
  end.

(** A row of [df_data]; [Nome] holds the two names the f-string joins
    with a space. *)
Record export_row := {
  ID : json;
  Nome : json * json;
  Descendentes : json;
  Orientandos_Diretos : Z
}.

Definition export_record (data : json) : result (option export_row) :=
  has <- py_in "MGP_academic" data ;;
  if has then
    academic <- py_getitem data "MGP_academic" ;;
    student_data <- py_get academic "student_data" (JObj []) ;;
    descendants <- py_get student_data "descendants" (JObj []) ;;
    id <- py_get academic "ID" JNull ;;
    given_name <- py_get academic "given_name" (JStr "") ;;
    family_name <- py_get academic "family_name" (JStr "") ;;
    descendant_count <- py_get descendants "descendant_count" (JInt 0) ;;
    advisees <- py_get descendants "advisees" (JObj []) ;;
    n <- py_len advisees ;;
    Ok (Some {| ID := id; Nome := (given_name, family_name);
                Descendentes := descendant_count; Orientandos_Diretos := n |})
  else Ok None.

Fixpoint export_rows (mathematicians_data : list json) (df_data : list export_row)
  : result (list export_row) :=
  match mathematicians_data with
  | [] => Ok df_data
  | data :: rest =>
      r <- export_record data ;;
      export_rows rest (df_data ++ option_list r)
  end.

(** The links and the graph of the scenario *)
Definition scenario_links : list AdvisorLink :=
  Eval cbv in
    match all_links scenario with
    | Ok links => links
    | Raise _ => []
    end.

Definition scenario_graph : DiGraph :=
  Eval cbv in
    match build_graph scenario [] with
    | Ok G => G
    | Raise _ => []
    end.

(** All schools of all records, in input order *)
Definition all_schools (mathematicians_data : list json) : result (list json) :=
  extend_each extract_school_info mathematicians_data.

Definition contains (k s : string) : bool :=
  match index 0 k s with
  | Some _ => true
  | None => false
  end.

(** The filter of step 4 on a school name *)
Definition brazilian (school : string) : bool :=
  contains "Brazil" school || contains "Brasil" school.

(** How many times a name occurs in a list of names *)
Definition times (s : string) (names : list string) : Z :=
  len (filter (String.eqb s) names).

(** The rows of two records with universities: one outside the filter,
    one twice *)
Definition school_records : list json :=
  [JObj [("MGP_academic",
          JObj [("ID", JStr "1");
                ("student_data",
                 JObj [("degrees",
                        JList [JObj [("schools",
                                      JList [JStr "Universidade de Sao Paulo, Brazil";
                                             JStr "Princeton University"])]])])])];
   JObj [("MGP_academic",
          JObj [("ID", JStr "2");
                ("student_data",
                 JObj [("degrees",
                        JList [JObj [("schools",
                                      JList [JStr "IMPA, Brasil"])];
                               JObj [("schools",
                                      JList [JStr "Universidade de Sao Paulo, Brazil"])]])])])]].

Definition school_names : list string :=
  ["Universidade de Sao Paulo, Brazil"; "Princeton University"; "IMPA, Brasil";
   "Universidade de Sao Paulo, Brazil"].

Definition is_object (v : json) : bool :=
  match v with
  | JObj _ => true
  | _ => false
  end.

(** School names as the keys of a counter *)
Definition as_links (names : list string) : list AdvisorLink :=
  map (fun s => (s, JNull)) names.

(** The sum of the counts of a counter *)
Definition total (c : Counter) : Z := fold_right Z.add 0%Z (map snd c).

(** A service that is interrupted at id 2 *)
Definition interrupted_service (mgp_id : json) : result json :=
  match mgp_id with
  | JInt 1 => Ok (person "A" [])
  | JInt 2 => Raise KeyboardInterrupt
  | JInt 3 => Ok (person "B" [("A", JStr "Ana")])
  | _ => Raise ConnectionError
  end.

(** * Properties *)

(** ** The cache *)

(** C2, as the code has it: [load_cache] returns the snapshot of a valid
    file and [None] for a missing file, and it raises for every other
    state of the file, because only FileNotFoundError is caught. *)
Theorem load_cache_catches_missing_file_only :
  load_cache Missing = Ok JNull
  /\ (forall data, load_cache (Holds data) = Ok data)
  /\ load_cache Corrupt = Raise JSONDecodeError
  /\ load_cache Undecodable = Raise UnicodeDecodeError
  /\ load_cache Unreadable = Raise PermissionError.
Proof. repeat split. Qed.

(** C2 fails on a corrupt file: the decoder's error leaves [load_cache]. *)
Lemma load_cache_corrupt_raises :
  load_cache Corrupt = Raise JSONDecodeError.
Proof. reflexivity. Qed.

Lemma append_assoc (s t u : string) : (s ^^ t) ^^ u = s ^^ t ^^ u.
Proof. induction s as [|c s IH]; simpl; [reflexivity | now rewrite IH]. Qed.

Lemma append_empty_r (s : string) : s ^^ "" = s.
Proof. induction s as [|c s IH]; simpl; [reflexivity | now rewrite IH]. Qed.

Lemma concat_cons (c : string) (cs : list string) :
  String.concat "" (c :: cs) = c ^^ String.concat "" cs.
Proof.
  destruct cs as [|c' cs]; simpl; [now rewrite append_empty_r | reflexivity].
Qed.

Lemma concat_app (cs cs' : list string) :
  String.concat "" (cs ++ cs') = String.concat "" cs ^^ String.concat "" cs'.
Proof.
  induction cs as [|c cs IH]; [reflexivity|].
  rewrite <- app_comm_cons, !concat_cons, IH. now rewrite append_assoc.
Qed.

Lemma run_writes (cs : list string) (text : string) :
  run (map Write cs) (Some text) = Some (text ^^ String.concat "" cs).
Proof.
  revert text. induction cs as [|c cs IH]; intros text.
  - simpl. now rewrite append_empty_r.
  - change (run (map Write (c :: cs)) (Some text))
      with (run (map Write cs) (Some (text ^^ c))).
    rewrite IH, concat_cons. now rewrite append_assoc.
Qed.

Lemma run_app (ops ops' : list file_op) (d : disk) :
  run (ops ++ ops') d = run ops' (run ops d).
Proof. apply fold_left_app. Qed.

Lemma firstn_map_app_le {A B} (f : A -> B) (l : list A) (tl : list B) (k : nat) :
  k <= List.length l -> firstn k (map f l ++ tl) = map f (firstn k l).
Proof.
  intros Hk. rewrite firstn_app, length_map.
  replace (k - List.length l) with 0 by lia.
  simpl. now rewrite app_nil_r, firstn_map.
Qed.

(** C5, as the code has it: [save_cache] overwrites the file in place.
    Once the save is over the file holds the whole serialised snapshot,
    whatever it held before; from the moment the file is opened until
    then it holds a front part of that text. *)
Theorem save_cache_overwrites_in_place (data : json) (d : disk) :
  run (save_cache data) d = Some (dumps data)
  /\ forall k : nat,
       exists text rest : string,
         save_cache_interrupted (S k) data d = Some text
         /\ dumps data = text ^^ rest.
Proof.
  unfold save_cache_interrupted, save_cache, dumps.
  set (cs := iterencode 0 data).
  split.
  - change (run (OpenW :: map Write cs ++ [Close]) d)
      with (run (map Write cs ++ [Close]) (Some "")).
    rewrite run_app, run_writes. reflexivity.
  - intros k.
    change (run (firstn (S k) (OpenW :: map Write cs ++ [Close])) d)
      with (run (firstn k (map Write cs ++ [Close])) (Some "")).
    destruct (Nat.le_gt_cases k (List.length cs)) as [Hk | Hk].
    + rewrite firstn_map_app_le by exact Hk.
      rewrite run_writes.
      exists (String.concat "" (firstn k cs)), (String.concat "" (skipn k cs)).
      split; [reflexivity|].
      rewrite <- concat_app. now rewrite firstn_skipn.
    + rewrite firstn_all2 by (rewrite length_app, length_map; simpl; lia).
      rewrite run_app, run_writes.
      exists (String.concat "" cs), "". split; [reflexivity|].
      now rewrite append_empty_r.
Qed.

Example encoder_escapes :
  encoder ("a" ^^ quote ^^ String "001" (String "009" "b"))
  = quote ^^ "a" ^^ backslash ^^ quote ^^ backslash ^^ "u0001"
    ^^ backslash ^^ "tb" ^^ quote.
Proof. reflexivity. Qed.

(** C5 fails when the save stops right after [open]: the file that held
    the previous snapshot is then empty, which is neither the previous
    text nor the text of the new snapshot. *)
Lemma save_cache_interrupted_leaves_partial_file :
  save_cache_interrupted 1 sample_snapshot (Some (dumps (JObj []))) = Some ""
  /\ ("" =? dumps (JObj [])) = false
  /\ ("" =? dumps sample_snapshot) = false
  /\ prefix "" (dumps sample_snapshot) = true.
Proof. repeat split. Qed.

(** ** Acquisition *)

Section FetchProperties.

Variable get : json -> result json.

Lemma io_bind_silent {A B} (a : A) (k : A -> io B) :
  io_bind ([], Ok a) k = k a.
Proof. unfold io_bind. now destruct (k a). Qed.

Lemma workers_output_app (l1 l2 : list json) :
  workers_output get (l1 ++ l2) = workers_output get l1 ++ workers_output get l2.
Proof. apply flat_map_app. Qed.

Lemma collect_results_app (l1 l2 acc : list json) :
  collect_results get (l1 ++ l2) acc
  = acc' <- collect_results get l1 acc ;; collect_results get l2 acc'.
Proof.
  revert acc. induction l1 as [|x l1 IH]; intros acc; [reflexivity|].
  simpl. destruct (snd (fetch_mathematician_parallel get x)) as [r|e]; simpl.
  - apply IH.
  - reflexivity.
Qed.

Lemma workers_output_reports (completed : list json) :
  (forall mgp_id e, In mgp_id completed -> get mgp_id = Raise e ->
                    is_Exception e = true) ->
  workers_output get completed = reports get completed.
Proof.
  induction completed as [|x l IH]; intros Hexc; [reflexivity|].
  unfold workers_output, reports in *. simpl.
  rewrite IH by (intros i e Hi; apply Hexc; now right). f_equal.
  unfold fetch_mathematician_parallel, lift, io_try.
  destruct (get x) as [r|e] eqn:Hx; [reflexivity|].
  now rewrite (Hexc x e (or_introl eq_refl) Hx).
Qed.

Lemma collect_results_answers (completed acc : list json) :
  (forall mgp_id e, In mgp_id completed -> get mgp_id = Raise e ->
                    is_Exception e = true) ->
  collect_results get completed acc = Ok (acc ++ answers get truthy completed).
Proof.
  revert acc. induction completed as [|x l IH]; intros acc Hexc.
  - simpl. now rewrite app_nil_r.
  - assert (Hl : forall mgp_id e, In mgp_id l -> get mgp_id = Raise e ->
                                   is_Exception e = true)
      by (intros i e Hi; apply Hexc; now right).
    simpl. unfold fetch_mathematician_parallel, lift, io_try.
    destruct (get x) as [r|e] eqn:Hx.
    + simpl. rewrite IH by exact Hl.
      destruct (truthy r); simpl; [now rewrite <- app_assoc | reflexivity].
    + rewrite (Hexc x e (or_introl eq_refl) Hx). simpl.
      rewrite IH by exact Hl. reflexivity.
Qed.

Lemma collect_completed_spec (completed acc : list json) :
  (forall mgp_id e, In mgp_id completed -> get mgp_id = Raise e ->
                    is_Exception e = true) ->
  collect_completed get completed acc
  = (reports get completed, Ok (acc ++ answers get truthy completed)).
Proof.
  intros Hexc. unfold collect_completed.
  now rewrite workers_output_reports, collect_results_answers.
Qed.

Lemma fetch_sequential_spec (ids acc : list json) :
  (forall mgp_id e, In mgp_id ids -> get mgp_id = Raise e ->
                    is_Exception e = true) ->
  fetch_sequential get ids acc
  = (reports get ids, Ok (acc ++ answers get (fun _ => true) ids)).
Proof.
  revert acc. induction ids as [|x l IH]; intros acc Hexc.
  - simpl. unfold io_ret. now rewrite app_nil_r.
  - assert (Hl : forall mgp_id e, In mgp_id l -> get mgp_id = Raise e ->
                                   is_Exception e = true)
      by (intros i e Hi; apply Hexc; now right).
    simpl. unfold lift, io_try.
    destruct (get x) as [r|e] eqn:Hx.
    + simpl. rewrite IH by exact Hl. simpl. now rewrite <- app_assoc.
    + simpl. rewrite (Hexc x e (or_introl eq_refl) Hx). simpl.
      rewrite IH by exact Hl. reflexivity.
Qed.

Lemma in_answers (keep : json -> bool) (ids : list json) (r : json) :
  In r (answers get keep ids)
  <-> exists mgp_id, In mgp_id ids /\ get mgp_id = Ok r /\ keep r = true.
Proof.
  unfold answers. rewrite in_flat_map. split.
  - intros (i & Hi & Hr). exists i. split; [exact Hi|].
    destruct (get i) as [r'|e]; [|destruct Hr].
    destruct (keep r') eqn:Hk; [|destruct Hr].
    destruct Hr as [<-|[]]. now split.
  - intros (i & Hi & Hg & Hk). exists i. split; [exact Hi|].
    rewrite Hg, Hk. now left.
Qed.

Lemma in_reports (ids : list json) (mgp_id : json) (e : exn) :
  In mgp_id ids -> get mgp_id = Raise e -> In (ErroAoBuscar mgp_id e) (reports get ids).
Proof.
  intros Hi Hg. unfold reports. rewrite in_flat_map.
  exists mgp_id. split; [exact Hi|]. rewrite Hg. now left.
Qed.

Lemma length_answers (keep : json -> bool) (ids : list json) :
  List.length (answers get keep ids) <= List.length ids.
Proof.
  induction ids as [|x l IH]; [apply Nat.le_refl|].
  unfold answers in *. simpl. rewrite length_app.
  destruct (get x) as [r|e]; [destruct (keep r)|]; simpl; lia.
Qed.

Lemma contract_of_spec (keep : json -> bool) (ids completed : list json) :
  Permutation ids completed ->
  batch_contract get keep ids (reports get completed, Ok (answers get keep completed)).
Proof.
  intros Hp. exists (reports get completed), (answers get keep completed).
  split; [reflexivity|]. repeat split.
  - intros r Hr. apply in_answers in Hr. destruct Hr as (i & Hi & Hg & _).
    exists i. split; [|exact Hg].
    apply Permutation_in with (l := completed); [now apply Permutation_sym | exact Hi].
  - rewrite (Permutation_length Hp). apply length_answers.
  - intros i e Hi Hg. apply in_reports; [|exact Hg].
    now apply Permutation_in with (l := ids).
  - intros i r Hi Hg Hk. apply in_answers. exists i. repeat split; try assumption.
    now apply Permutation_in with (l := ids).
Qed.

Lemma answers_succeeded (keep : json -> bool) (ids : list json) :
  answers get keep (filter (succeeded get) ids) = answers get keep ids.
Proof.
  induction ids as [|x l IH]; [reflexivity|].
  unfold answers, succeeded in *. simpl.
  destruct (get x) as [r|e] eqn:Hx; simpl; [rewrite Hx|]; now rewrite IH.
Qed.

Lemma succeeded_never_raises (ids : list json) (mgp_id : json) (e : exn) :
  In mgp_id (filter (succeeded get) ids) -> get mgp_id = Raise e ->
  is_Exception e = true.
Proof.
  intros Hin Hg. apply filter_In in Hin. destruct Hin as [_ Hs].
  unfold succeeded in Hs. rewrite Hg in Hs. discriminate.
Qed.

(** C4: whatever the order in which the pool completes the fetches, and
    also in the sequential loop, the batch returns; its records are
    answers to ids of the list and are no more than the ids; every id
    whose fetch failed is reported with its error and contributes no
    record; the answer to every other id is among the records (in the
    parallel mode, every answer that is a non-empty document); and the
    records are those of the same batch without the failed ids. *)
Theorem fetch_all_tolerates_failures (ids : list json) :
  (forall mgp_id e, In mgp_id ids -> get mgp_id = Raise e ->
                    is_Exception e = true) ->
  (forall run, fetch_all_mathematicians_parallel get ids run ->
               batch_contract get truthy ids run)
  /\ fetch_all_mathematicians_parallel get ids (collect_completed get ids [])
  /\ batch_contract get (fun _ => true) ids (fetch_sequential get ids [])
  /\ (forall completed, Permutation ids completed ->
        snd (collect_completed get completed [])
        = snd (collect_completed get (filter (succeeded get) completed) []))
  /\ snd (fetch_sequential get ids [])
     = snd (fetch_sequential get (filter (succeeded get) ids) []).
Proof.
  intros Hexc. split; [|split; [|split; [|split]]].
  - intros run Hrun. destruct Hrun as [completed Hp].
    rewrite collect_completed_spec.
    + now apply contract_of_spec.
    + intros i e Hi. apply Hexc.
      apply Permutation_in with (l := completed); [now apply Permutation_sym | exact Hi].
  - constructor. apply Permutation_refl.
  - rewrite fetch_sequential_spec by exact Hexc.
    apply contract_of_spec. apply Permutation_refl.
  - intros completed Hp.
    rewrite !collect_completed_spec.
    + simpl. now rewrite answers_succeeded.
    + apply succeeded_never_raises.
    + intros i e Hi. apply Hexc.
      apply Permutation_in with (l := completed); [now apply Permutation_sym | exact Hi].
  - rewrite !fetch_sequential_spec.
    + simpl. now rewrite answers_succeeded.
    + apply succeeded_never_raises.
    + exact Hexc.
Qed.

Lemma collect_completed_skip (mgp_id payload : json) (after acc : list json) :
  get mgp_id = Ok payload -> truthy payload = false ->
  collect_completed get (mgp_id :: after) acc = collect_completed get after acc.
Proof.
  intros Hg Hf. unfold collect_completed, workers_output. simpl.
  unfold fetch_mathematician_parallel, lift, io_try.
  rewrite Hg. simpl. now rewrite Hf.
Qed.

(** C10: in the parallel mode an id whose fetch succeeded with [null],
    an empty object or an empty list (any falsy document) leaves no
    trace: the run is, records and reports alike, the run without that
    id. *)
Theorem parallel_drops_falsy_payloads
  (mgp_id payload : json) (before after : list json) :
  get mgp_id = Ok payload ->
  payload = JNull \/ payload = JObj [] \/ payload = JList []
  \/ truthy payload = false ->
  collect_completed get (before ++ mgp_id :: after) []
  = collect_completed get (before ++ after) [].
Proof.
  intros Hg Hp.
  assert (Hf : truthy payload = false)
    by (destruct Hp as [->|[->|[->|H]]]; trivial).
  unfold collect_completed. rewrite !workers_output_app, !collect_results_app.
  destruct (collect_results get before []) as [acc|e]; simpl.
  - pose proof (collect_completed_skip _ _ after acc Hg Hf) as Hskip.
    unfold collect_completed in Hskip. injection Hskip as Hout Hres.
    now rewrite Hout, Hres.
  - pose proof (collect_completed_skip _ _ after [] Hg Hf) as Hskip.
    unfold collect_completed in Hskip. injection Hskip as Hout _.
    now rewrite Hout.
Qed.

End FetchProperties.

Example fetch_sequential_sample :
  fetch_sequential sample_service [JInt 1; JInt 2; JInt 3] []
  = ([ErroAoBuscar (JInt 2) (HTTPError 500)],
     Ok [person "A" []; person "B" [("A", JStr "Ana")]]).
Proof. reflexivity. Qed.

Lemma fetch_all_tolerates_failures_witness :
  (forall run,
      fetch_all_mathematicians_parallel sample_service [JInt 1; JInt 2; JInt 3] run ->
      batch_contract sample_service truthy [JInt 1; JInt 2; JInt 3] run)
  /\ fetch_all_mathematicians_parallel sample_service [JInt 1; JInt 2; JInt 3]
       (collect_completed sample_service [JInt 1; JInt 2; JInt 3] [])
  /\ batch_contract sample_service (fun _ => true) [JInt 1; JInt 2; JInt 3]
       (fetch_sequential sample_service [JInt 1; JInt 2; JInt 3] [])
  /\ (forall completed, Permutation [JInt 1; JInt 2; JInt 3] completed ->
        snd (collect_completed sample_service completed [])
        = snd (collect_completed sample_service
                 (filter (succeeded sample_service) completed) []))
  /\ snd (fetch_sequential sample_service [JInt 1; JInt 2; JInt 3] [])
     = snd (fetch_sequential sample_service
              (filter (succeeded sample_service) [JInt 1; JInt 2; JInt 3]) []).
Proof.
  apply (fetch_all_tolerates_failures sample_service [JInt 1; JInt 2; JInt 3]).
  intros mgp_id e [<-|[<-|[<-|[]]]]; simpl; intros H; inversion H; reflexivity.
Defined.

Lemma parallel_drops_falsy_payloads_witness :
  collect_completed sample_service ([JInt 1] ++ JInt 4 :: [JInt 3]) []
  = collect_completed sample_service ([JInt 1] ++ [JInt 3]) [].
Proof.
  apply (parallel_drops_falsy_payloads sample_service (JInt 4) JNull).
  - reflexivity.
  - left. reflexivity.
Defined.

(** ** The graph builder *)

Lemma node_eqb_eq (a b : node) : node_eqb a b = true <-> a = b.
Proof.
  destruct a as [x|s], b as [y|t]; simpl; split; intros H;
    try discriminate; try (inversion H; subst).
  - apply Z.eqb_eq in H. now subst.
  - apply Z.eqb_refl.
  - apply String.eqb_eq in H. now subst.
  - apply String.eqb_refl.
Qed.

Lemma node_eqb_refl (a : node) : node_eqb a a = true.
Proof. now apply node_eqb_eq. Qed.

Lemma mem_In (n : node) (l : list node) : mem n l = true <-> In n l.
Proof.
  unfold mem. rewrite existsb_exists. split.
  - intros (x & Hx & He). apply node_eqb_eq in He. now subst.
  - intros H. exists n. split; [exact H | apply node_eqb_refl].
Qed.

Lemma has_edge_In (G : adjacency) (u v : node) :
  has_edge G u v = true <-> exists vs, In (u, vs) G /\ In v vs.
Proof.
  unfold has_edge. rewrite existsb_exists. split.
  - intros ([n vs] & Hp & He). simpl in He.
    apply andb_true_iff in He. destruct He as [Hn Hv].
    apply node_eqb_eq in Hn. subst n. apply mem_In in Hv. now exists vs.
  - intros (vs & Hp & Hv). exists (u, vs). split; [exact Hp|]. simpl.
    rewrite node_eqb_refl. now apply mem_In.
Qed.

Lemma has_node_In (G : adjacency) (n : node) :
  has_node G n = true <-> In n (map fst G).
Proof. apply mem_In. Qed.

Lemma add_adj_keys (u v : node) (G : adjacency) :
  map fst (add_adj u v G) = map fst G.
Proof.
  induction G as [|[n vs] G IH]; [reflexivity|]. simpl.
  destruct (node_eqb n u); simpl; [reflexivity | now rewrite IH].
Qed.

Lemma add_adj_keeps (u v : node) (G : adjacency) (x : node) (xs : list node) :
  In (x, xs) G -> exists xs', In (x, xs') (add_adj u v G) /\ incl xs xs'.
Proof.
  induction G as [|[n vs] G IH]; [intros []|]. simpl.
  intros [Heq | Hin].
  - inversion Heq; subst n vs.
    destruct (node_eqb x u).
    + exists (if mem v xs then xs else xs ++ [v]). split; [now left|].
      destruct (mem v xs); [apply incl_refl | now apply incl_appl, incl_refl].
    + exists xs. split; [now left | apply incl_refl].
  - destruct (node_eqb n u).
    + exists xs. split; [now right | apply incl_refl].
    + destruct (IH Hin) as (xs' & Hx & Hi). exists xs'. split; [now right | exact Hi].
Qed.

Lemma add_adj_adds (u v : node) (G : adjacency) :
  In u (map fst G) -> exists vs, In (u, vs) (add_adj u v G) /\ In v vs.
Proof.
  induction G as [|[n vs] G IH]; [intros []|]. simpl.
  destruct (node_eqb n u) eqn:Hn.
  - intros _. apply node_eqb_eq in Hn. subst n.
    exists (if mem v vs then vs else vs ++ [v]). split; [now left|].
    destruct (mem v vs) eqn:Hm; [now apply mem_In|].
    apply in_or_app. right. now left.
  - intros [Heq | Hin].
    + subst n. now rewrite node_eqb_refl in Hn.
    + destruct (IH Hin) as (vs' & Hx & Hv). exists vs'. split; [now right | exact Hv].
Qed.

Lemma add_node_keys (G : adjacency) (n x : node) :
  In x (map fst (add_node G n)) <-> x = n \/ In x (map fst G).
Proof.
  unfold add_node. destruct (has_node G n) eqn:Hn.
  - apply has_node_In in Hn. split; [now right|]. intros [->|H]; assumption.
  - rewrite map_app, in_app_iff. simpl. split.
    + intros [H|[H|[]]]; [now right | now left].
    + intros [->|H]; [right; now left | now left].
Qed.

Lemma extends_refl (G : DiGraph) : extends G G.
Proof. split; auto. Qed.

Lemma extends_trans (G1 G2 G3 : DiGraph) :
  extends G1 G2 -> extends G2 G3 -> extends G1 G3.
Proof. intros [N1 E1] [N2 E2]. split; auto. Qed.

Lemma extends_add_node (G : DiGraph) (n : node) : extends G (add_node G n).
Proof.
  split.
  - intros x Hx. apply has_node_In. apply add_node_keys. right.
    now apply has_node_In.
  - intros x y Hxy. apply has_edge_In in Hxy. destruct Hxy as (vs & Hp & Hv).
    apply has_edge_In. exists vs. split; [|exact Hv].
    unfold add_node. destruct (has_node G n); [exact Hp|].
    apply in_or_app. now left.
Qed.

Lemma extends_add_adj (G : DiGraph) (u v : node) : extends G (add_adj u v G).
Proof.
  split.
  - intros x Hx. apply has_node_In. rewrite add_adj_keys. now apply has_node_In.
  - intros x y Hxy. apply has_edge_In in Hxy. destruct Hxy as (vs & Hp & Hv).
    destruct (add_adj_keeps u v G x vs Hp) as (vs' & Hp' & Hi).
    apply has_edge_In. exists vs'. split; [exact Hp' | now apply Hi].
Qed.

Lemma add_edge_spec (G G' : DiGraph) (ju jv : json) :
  add_edge G ju jv = Ok G' ->
  extends G G'
  /\ exists u v, as_node ju = Ok u /\ as_node jv = Ok v
                 /\ has_node G' u = true /\ has_node G' v = true
                 /\ has_edge G' u v = true.
Proof.
  unfold add_edge. destruct (as_node ju) as [u|e]; [|discriminate].
  destruct (as_node jv) as [v|e]; [|discriminate]. simpl.
  intros H. inversion H; subst G'. clear H.
  set (G2 := add_node (add_node G u) v).
  assert (E2 : extends G G2)
    by (eapply extends_trans; apply extends_add_node).
  assert (Hu : In u (map fst G2)).
  { apply add_node_keys. right. apply add_node_keys. now left. }
  assert (Hv : In v (map fst G2)) by (apply add_node_keys; now left).
  split.
  - eapply extends_trans; [exact E2 | apply extends_add_adj].
  - exists u, v. repeat split.
    + apply has_node_In. now rewrite add_adj_keys.
    + apply has_node_In. now rewrite add_adj_keys.
    + apply has_edge_In. now apply add_adj_adds.
Qed.

Lemma add_edges_spec (advisors : list AdvisorLink) (student_id : json)
  (G G' : DiGraph) :
  add_edges G advisors student_id = Ok G' ->
  extends G G'
  /\ forall advisor_id name, In (advisor_id, name) advisors ->
       exists s, as_node student_id = Ok s
                 /\ has_node G' (NStr advisor_id) = true
                 /\ has_node G' s = true
                 /\ has_edge G' (NStr advisor_id) s = true.
Proof.
  revert G. induction advisors as [|[a n] rest IH]; intros G; simpl.
  - intros H. inversion H; subst. split; [apply extends_refl | intros ? ? []].
  - destruct (add_edge G (JStr a) student_id) as [G1|e] eqn:H1; [|discriminate].
    simpl. intros H2.
    destruct (add_edge_spec _ _ _ _ H1) as (E1 & u & v & Hu & Hv & Nu & Nv & Euv).
    destruct (IH _ H2) as (E2 & Hrest).
    simpl in Hu. inversion Hu; subst u.
    split; [now apply extends_trans with G1|].
    intros a' n' [Heq | Hin].
    + inversion Heq; subst a' n'. exists v. destruct E2 as [N2 Ed2].
      repeat split; auto.
    + exact (Hrest a' n' Hin).
Qed.

(** C1, as the code has it: for every record with an academic part and
    every AdvisorLink extracted from it, a graph that is built has the
    advisor id and the subject id as nodes and the edge between them,
    whatever the ids are: nothing is skipped, and the empty string is an
    id like any other.  The subject id of such a record is then a value
    the graph accepts as a node, which an absent id is not. *)
Theorem build_graph_adds_every_link (mathematicians_data : list json) :
  forall (G0 G : DiGraph) (data academic student_id : json)
         (advisors : list AdvisorLink) (advisor_id : string) (name : json),
    build_graph mathematicians_data G0 = Ok G ->
    In data mathematicians_data ->
    py_in "MGP_academic" data = Ok true ->
    py_getitem data "MGP_academic" = Ok academic ->
    py_get academic "ID" JNull = Ok student_id ->
    extract_advisor_info data = Ok advisors ->
    In (advisor_id, name) advisors ->
    exists s, as_node student_id = Ok s
              /\ student_id <> JNull
              /\ has_node G (NStr advisor_id) = true
              /\ has_node G s = true
              /\ has_edge G (NStr advisor_id) s = true.
Proof.
  induction mathematicians_data as [|d rest IH];
    intros G0 G data academic student_id advisors advisor_id name Hb Hin;
    [destruct Hin|].
  assert (Hext : forall G1 G2, build_graph rest G1 = Ok G2 -> extends G1 G2).
  { clear. induction rest as [|d rest IH]; intros G1 G2; simpl.
    - intros H. inversion H. apply extends_refl.
    - destruct (py_in "MGP_academic" d) as [[|]|]; simpl; try discriminate; [|apply IH].
      destruct (py_getitem d "MGP_academic") as [ac|]; simpl; [|discriminate].
      destruct (py_get ac "ID" JNull) as [sid|]; simpl; [|discriminate].
      destruct (extract_advisor_info d) as [adv|]; simpl; [|discriminate].
      destruct (add_edges G1 adv sid) as [G'|] eqn:Ha; simpl; [|discriminate].
      intros H. apply extends_trans with G'; [|now apply IH].
      now destruct (add_edges_spec _ _ _ _ Ha). }
  simpl in Hb. destruct Hin as [-> | Hin].
  - intros Hhas Hac Hid Hadv Hlink. rewrite Hhas in Hb. simpl in Hb.
    rewrite Hac in Hb. simpl in Hb. rewrite Hid in Hb. simpl in Hb.
    rewrite Hadv in Hb. simpl in Hb.
    destruct (add_edges G0 advisors student_id) as [G'|] eqn:Ha; [|discriminate].
    simpl in Hb.
    destruct (add_edges_spec _ _ _ _ Ha) as (_ & Hlinks).
    destruct (Hlinks _ _ Hlink) as (s & Hs & Na & Ns & Eas).
    destruct (Hext _ _ Hb) as [Nx Ex].
    exists s. repeat split; auto.
    intros ->. discriminate.
  - destruct (py_in "MGP_academic" d) as [[|]|]; simpl in Hb; try discriminate.
    + destruct (py_getitem d "MGP_academic") as [ac|]; simpl in Hb; [|discriminate].
      destruct (py_get ac "ID" JNull) as [sid|]; simpl in Hb; [|discriminate].
      destruct (extract_advisor_info d) as [adv|]; simpl in Hb; [|discriminate].
      destruct (add_edges G0 adv sid) as [G'|]; simpl in Hb; [|discriminate].
      now apply (IH G' G data).
    + now apply (IH G0 G data).
Qed.

(** C1 fails on an advisor whose id is the empty string: the edge from
    the empty id to the subject is added, and the empty id is a node.
    An absent subject id is not skipped either: the build raises. *)
Lemma build_graph_keeps_empty_advisor_id :
  build_graph [person "7" [("", JStr "Unknown")]] []
  = Ok [(NStr "", [NStr "7"]); (NStr "7", [])].
Proof. reflexivity. Qed.

Example build_graph_absent_subject_id_raises :
  build_graph
    [JObj [("MGP_academic",
            JObj [("student_data",
                   JObj [("degrees",
                          JList [JObj [("advised by",
                                        JObj [("5", JStr "Ana")])]])])])]] []
  = Raise ValueError.
Proof. reflexivity. Qed.

Lemma build_graph_adds_every_link_witness :
  exists s, as_node (JStr "7") = Ok s
            /\ JStr "7" <> JNull
            /\ has_node [(NStr "", [NStr "7"]); (NStr "7", [])] (NStr "") = true
            /\ has_node [(NStr "", [NStr "7"]); (NStr "7", [])] s = true
            /\ has_edge [(NStr "", [NStr "7"]); (NStr "7", [])] (NStr "") s = true.
Proof.
  apply (build_graph_adds_every_link
           [person "7" [("", JStr "Unknown")]] []
           [(NStr "", [NStr "7"]); (NStr "7", [])]
           (person "7" [("", JStr "Unknown")])
           (JObj [("ID", JStr "7");
                  ("given_name", JStr "7");
                  ("family_name", JStr "Silva");
                  ("student_data",
                   JObj [("degrees",
                          JList [JObj [("advised by", JObj [("", JStr "Unknown")])]]);
                         ("descendants",
                          JObj [("advisees", JObj []);
                                ("descendant_count", JInt 0)])])])
           (JStr "7") [("", JStr "Unknown")] "" (JStr "Unknown"));
    try reflexivity; simpl; left; reflexivity.
Defined.

(** *** Nodes come from edges alone *)

Lemma add_node_NoDup (G : adjacency) (n : node) :
  NoDup (map fst G) -> NoDup (map fst (add_node G n)).
Proof.
  intros Hnd. unfold add_node. destruct (has_node G n) eqn:Hn; [exact Hnd|].
  rewrite map_app. simpl. apply NoDup_app; [exact Hnd | repeat constructor; intros [] |].
  intros x Hx [<-|[]].
  apply has_node_In in Hx. congruence.
Qed.

Lemma add_node_edges (G : adjacency) (n x y : node) :
  has_edge (add_node G n) x y = true -> has_edge G x y = true.
Proof.
  unfold add_node. destruct (has_node G n); [trivial|].
  rewrite !has_edge_In. intros (vs & Hp & Hv).
  apply in_app_or in Hp. destruct Hp as [Hp | [Heq|[]]]; [now exists vs|].
  inversion Heq; subst. destruct Hv.
Qed.

Lemma add_adj_edges (G : adjacency) (u v x y : node) :
  has_edge (add_adj u v G) x y = true ->
  has_edge G x y = true \/ (x = u /\ y = v).
Proof.
  rewrite !has_edge_In. intros (vs & Hp & Hv).
  induction G as [|[n ns] G IH]; [destruct Hp|]. simpl in Hp.
  destruct (node_eqb n u) eqn:Hn.
  - destruct Hp as [Heq | Hp].
    + injection Heq as Hx Hvs. apply node_eqb_eq in Hn. subst x n.
      destruct (mem v ns).
      * left. exists vs. split; [left; now subst vs | exact Hv].
      * subst vs. apply in_app_or in Hv. destruct Hv as [Hv | [Hy|[]]].
        -- left. exists ns. split; [now left | exact Hv].
        -- right. now split.
    + left. exists vs. split; [now right | exact Hv].
  - destruct Hp as [Heq | Hp].
    + left. exists vs. split; [now left | exact Hv].
    + destruct (IH Hp) as [(vs' & Hp' & Hv') | Hnew]; [|now right].
      left. exists vs'. split; [now right | exact Hv'].
Qed.

Lemma linked_add_edge (G G' : DiGraph) (ju jv : json) :
  linked G -> add_edge G ju jv = Ok G' -> linked G'.
Proof.
  intros (Hnd & Hends & Hinc) Ha.
  destruct (add_edge_spec _ _ _ _ Ha) as ([Nx Ex] & u & v & Hu & Hv & Nu & Nv & Euv).
  unfold add_edge in Ha. rewrite Hu, Hv in Ha. simpl in Ha.
  injection Ha as HG'. subst G'.
  split; [|split].
  - rewrite add_adj_keys. now apply add_node_NoDup, add_node_NoDup.
  - intros x y Hxy.
    apply add_adj_edges in Hxy. destruct Hxy as [Hxy | [-> ->]].
    + apply add_node_edges, add_node_edges in Hxy.
      destruct (Hends x y Hxy). split; now apply Nx.
    + now split.
  - intros n Hn. apply has_node_In in Hn.
    rewrite add_adj_keys in Hn. apply add_node_keys in Hn.
    destruct Hn as [-> | Hn]; [exists u; now right|].
    apply add_node_keys in Hn.
    destruct Hn as [-> | Hn]; [exists v; now left|].
    apply has_node_In in Hn. destruct (Hinc n Hn) as (m & [Hm | Hm]);
      exists m; [left | right]; now apply Ex.
Qed.

Lemma linked_add_edges (advisors : list AdvisorLink) (student_id : json) :
  forall G G', linked G -> add_edges G advisors student_id = Ok G' -> linked G'.
Proof.
  induction advisors as [|[a n] rest IH]; intros G G' HG; simpl.
  - intros H. now inversion H; subst.
  - destruct (add_edge G (JStr a) student_id) as [G1|] eqn:H1; [|discriminate].
    simpl. apply IH. now apply (linked_add_edge G G1 (JStr a) student_id).
Qed.

Lemma linked_build_graph (mathematicians_data : list json) :
  forall G G', linked G -> build_graph mathematicians_data G = Ok G' -> linked G'.
Proof.
  induction mathematicians_data as [|d rest IH]; intros G G' HG; simpl.
  - intros H. now inversion H; subst.
  - destruct (py_in "MGP_academic" d) as [[|]|]; simpl; try discriminate;
      [|now apply IH].
    destruct (py_getitem d "MGP_academic") as [ac|]; simpl; [|discriminate].
    destruct (py_get ac "ID" JNull) as [sid|]; simpl; [|discriminate].
    destruct (extract_advisor_info d) as [adv|]; simpl; [|discriminate].
    destruct (add_edges G adv sid) as [G1|] eqn:Ha; simpl; [|discriminate].
    apply IH. now apply (linked_add_edges adv sid G G1).
Qed.

Lemma linked_nil : linked [].
Proof.
  split; [constructor | split]; intros; discriminate.
Qed.

Lemma in_edges (G : adjacency) (u v : node) :
  has_edge G u v = true <-> In (u, v) (edges G).
Proof.
  rewrite has_edge_In. unfold edges. rewrite in_flat_map. split.
  - intros (vs & Hp & Hv). exists (u, vs). split; [exact Hp|].
    simpl. apply in_map_iff. now exists v.
  - intros ([n ns] & Hp & Hv). simpl in Hv. apply in_map_iff in Hv.
    destruct Hv as (w & Heq & Hw). inversion Heq; subst. now exists ns.
Qed.

Lemma to_undirected_edges (G : DiGraph) :
  to_undirected G
  = fold_left (fun H e => add_undirected H (fst e) (snd e)) (edges G)
      (map (fun p => (fst p, [])) G).
Proof.
  unfold to_undirected. generalize (map (fun p : node * list node => (fst p, @nil node)) G).
  induction G as [|[u vs] G IH]; intros H; [reflexivity|].
  simpl. unfold edges in *. simpl. rewrite fold_left_app, IH. f_equal.
  clear. revert H. induction vs as [|v vs IH]; intros H; [reflexivity|].
  simpl. now rewrite IH.
Qed.

Lemma nonempty_add_adj (H : adjacency) (u v n : node) :
  nonempty_at H n -> nonempty_at (add_adj u v H) n.
Proof.
  intros (ns & Hp & Hne).
  destruct (add_adj_keeps u v H n ns Hp) as (ns' & Hp' & Hi).
  exists ns'. split; [exact Hp'|]. intros ->.
  destruct ns as [|x ns]; [now apply Hne | destruct (Hi x (or_introl eq_refl))].
Qed.

Lemma nonempty_add_adj_new (H : adjacency) (u v : node) :
  In u (map fst H) -> nonempty_at (add_adj u v H) u.
Proof.
  intros Hu. destruct (add_adj_adds u v H Hu) as (vs & Hp & Hv).
  exists vs. split; [exact Hp|]. intros ->. destruct Hv.
Qed.

Lemma fold_add_undirected (es : list (node * node)) :
  forall H : adjacency,
    (forall e, In e es -> In (fst e) (map fst H) /\ In (snd e) (map fst H)) ->
    let H' := fold_left (fun H e => add_undirected H (fst e) (snd e)) es H in
    map fst H' = map fst H
    /\ (forall n, nonempty_at H n -> nonempty_at H' n)
    /\ (forall e, In e es -> nonempty_at H' (fst e) /\ nonempty_at H' (snd e)).
Proof.
  induction es as [|[u v] es IH]; intros H Hes; simpl.
  - split; [reflexivity | split; [trivial | intros e []]].
  - destruct (Hes (u, v) (or_introl eq_refl)) as [Hu Hv]. simpl in Hu, Hv.
    assert (Hk : map fst (add_undirected H u v) = map fst H)
      by (unfold add_undirected; now rewrite !add_adj_keys).
    destruct (IH (add_undirected H u v)) as (Hkeys & Hkeep & Hnew).
    { intros e He. rewrite Hk. apply Hes. now right. }
    split; [now rewrite Hkeys | split].
    + intros n Hn. apply Hkeep. unfold add_undirected.
      now apply nonempty_add_adj, nonempty_add_adj.
    + intros e [<- | He]; [|now apply Hnew]. simpl. split; apply Hkeep.
      * unfold add_undirected. now apply nonempty_add_adj, nonempty_add_adj_new.
      * unfold add_undirected. apply nonempty_add_adj_new.
        now rewrite add_adj_keys.
Qed.

Lemma NoDup_keys_unique {V} (l : list (node * V)) (k : node) (a b : V) :
  NoDup (map fst l) -> In (k, a) l -> In (k, b) l -> a = b.
Proof.
  induction l as [|[k' v] l IH]; simpl; [intros _ []|].
  intros Hnd [Ha | Ha] [Hb | Hb]; inversion Hnd; subst.
  - congruence.
  - inversion Ha; subst. exfalso. apply H1.
    change k with (fst (k, b)). now apply in_map.
  - inversion Hb; subst. exfalso. apply H1.
    change k with (fst (k, a)). now apply in_map.
  - now apply IH.
Qed.

Lemma filter_none {A} (f : A -> bool) (l : list A) :
  (forall x, In x l -> f x = false) -> filter f l = [].
Proof.
  induction l as [|x l IH]; intros Hf; [reflexivity|]. simpl.
  rewrite (Hf x (or_introl eq_refl)). apply IH. intros y Hy. apply Hf. now right.
Qed.

(** X17: the graph of the pipeline gets its nodes from its edges alone,
    so every node has a neighbour: whatever the records, no node is
    isolated. *)
Lemma build_graph_never_isolates (mathematicians_data : list json) (G : DiGraph) :
  build_graph mathematicians_data [] = Ok G ->
  isolates (to_undirected G) = [].
Proof.
  intros Hb.
  destruct (linked_build_graph _ _ _ linked_nil Hb) as (Hnd & Hends & Hinc).
  rewrite to_undirected_edges.
  set (H0 := map (fun p : node * list node => (fst p, @nil node)) G).
  assert (Hk0 : map fst H0 = map fst G).
  { unfold H0. rewrite map_map. reflexivity. }
  destruct (fold_add_undirected (edges G) H0) as (Hkeys & _ & Hnew).
  { intros [u v] He. apply in_edges in He. rewrite Hk0. simpl.
    destruct (Hends u v He). split; now apply has_node_In. }
  set (H' := fold_left (fun (H : Graph) (e : node * node) =>
                          add_undirected H (fst e) (snd e)) (edges G) H0) in *.
  unfold isolates.
  replace (filter (fun p => Nat.eqb (degree p) 0) H') with (@nil (node * list node));
    [reflexivity|].
  symmetry. apply filter_none. intros [n ns] Hp.
  assert (Hn : In n (map fst G)).
  { rewrite <- Hk0, <- Hkeys. change n with (fst (n, ns)). now apply in_map. }
  apply has_node_In in Hn. destruct (Hinc n Hn) as (m & Hm).
  assert (Hne : nonempty_at H' n).
  { destruct Hm as [Hm | Hm]; apply in_edges in Hm;
      destruct (Hnew _ Hm) as [H1 H2]; [exact H1 | exact H2]. }
  destruct Hne as (ns' & Hp' & Hne).
  assert (Heq : ns = ns').
  { apply (NoDup_keys_unique H' n); [|exact Hp | exact Hp'].
    rewrite Hkeys, Hk0. exact Hnd. }
  subst ns'. unfold degree. simpl.
  destruct ns as [|x ns]; [now destruct Hne | reflexivity].
Qed.

(** C3: on the five records of the scenario the analyzer reports no
    isolated node and a single component, of the four linked people: E,
    who has no link, is not a node of the graph at all. *)
Theorem scenario_reports_no_isolated_node :
  isolated_nodes scenario = Ok []
  /\ component_sizes scenario = Ok [4%Z]
  /\ (exists G, build_graph scenario [] = Ok G /\ has_node G (NStr "E") = false).
Proof.
  repeat split. eexists. split; reflexivity.
Qed.

Example scenario_leaderboard_and_childless :
  top_advisors scenario = ([("A", "Ana", 2%Z); ("B", "Bia", 1%Z)], Ok tt)
  /\ no_advisees scenario [] = Ok [JStr "C"; JStr "D"; JStr "E"].
Proof. split; reflexivity. Qed.

(** ** The record with most descendants *)

Lemma scan_record_count (st : Z * option json) (data : json) :
  scan_record st data
  = r <- record_count data ;; Ok (fold_left scan_step (option_list r) st).
Proof.
  unfold scan_record, record_count.
  destruct (py_in "MGP_academic" data) as [[|]|]; simpl; try reflexivity.
  destruct (py_getitem data "MGP_academic") as [ac|]; simpl; [|reflexivity].
  destruct (py_get ac "student_data" (JObj [])) as [sd|]; simpl; [|reflexivity].
  destruct (py_get sd "descendants" (JObj [])) as [ds|]; simpl; [|reflexivity].
  destruct (py_get ds "descendant_count" (JInt 0)) as [dc|]; simpl; [|reflexivity].
  destruct (as_number dc) as [n|]; simpl; [|reflexivity].
  unfold scan_step. simpl. now destruct (n >? fst st)%Z.
Qed.

Lemma scan_descendants_counts (mathematicians_data : list json) :
  forall (entries : list (json * Z)) (st : Z * option json),
    record_counts mathematicians_data = Ok entries ->
    scan_descendants mathematicians_data st = Ok (fold_left scan_step entries st).
Proof.
  unfold record_counts.
  induction mathematicians_data as [|d rest IH]; intros entries st; simpl.
  - intros H. inversion H. reflexivity.
  - rewrite scan_record_count.
    destruct (record_count d) as [r|]; simpl; [|discriminate].
    destruct (extend_each _ rest) as [es|] eqn:Hes; simpl; [|discriminate].
    intros H. inversion H; subst entries.
    rewrite fold_left_app. now apply IH.
Qed.

Lemma scan_step_fold (entries : list (json * Z)) :
  forall (m0 : Z) (t0 : option json),
    (fold_left scan_step entries (m0, t0) = (m0, t0)
     /\ forall e, In e entries -> (snd e <= m0)%Z)
    \/ exists before top n after,
         entries = before ++ (top, n) :: after
         /\ fold_left scan_step entries (m0, t0) = (n, Some top)
         /\ (m0 < n)%Z
         /\ (forall e, In e before -> (snd e < n)%Z)
         /\ (forall e, In e after -> (snd e <= n)%Z).
Proof.
  induction entries as [|[ac n] es IH]; intros m0 t0.
  - left. split; [reflexivity | intros e []].
  - simpl.
    replace (scan_step (m0, t0) (ac, n))
      with (if (n >? m0)%Z then (n, Some ac) else (m0, t0)) by reflexivity.
    destruct (n >? m0)%Z eqn:Hgt.
    + right. apply Z.gtb_lt in Hgt.
      destruct (IH n (Some ac)) as [[Heq Hle] | (b & top & M & a & He & Hf & Hlt & Hb & Ha)].
      * exists [], ac, n, es.
        split; [reflexivity|]. split; [exact Heq|]. split; [exact Hgt|].
        split; [intros e []|exact Hle].
      * exists ((ac, n) :: b), top, M, a. subst es.
        split; [reflexivity|]. split; [exact Hf|]. split; [lia|].
        split; [|exact Ha].
        intros e [<-|He]; simpl; [lia | now apply Hb].
    + assert (Hle : (n <= m0)%Z).
      { destruct (Z.gtb_spec n m0); [discriminate | lia]. }
      destruct (IH m0 t0) as [[Heq Hall] | (b & top & M & a & He & Hf & Hlt & Hb & Ha)].
      * left. split; [exact Heq|]. intros e [<-|He]; simpl; [exact Hle | now apply Hall].
      * right. exists ((ac, n) :: b), top, M, a. subst es.
        split; [reflexivity|]. split; [exact Hf|]. split; [exact Hlt|].
        split; [|exact Ha].
        intros e [<-|He]; simpl; [lia | now apply Hb].
Qed.

Lemma record_count_truthy (data academic : json) (n : Z) :
  record_count data = Ok (Some (academic, n)) -> (0 < n)%Z ->
  truthy academic = true.
Proof.
  unfold record_count.
  destruct (py_in "MGP_academic" data) as [[|]|]; simpl; try discriminate.
  destruct (py_getitem data "MGP_academic") as [ac|]; simpl; [|discriminate].
  destruct ac as [| | | |l|kvs]; simpl; try discriminate.
  destruct kvs as [|kv kvs]; simpl.
  - intros H. inversion H. lia.
  - destruct (py_get _ "descendants" (JObj [])) as [ds|]; simpl; [|discriminate].
    destruct (py_get ds "descendant_count" (JInt 0)) as [dc|]; simpl; [|discriminate].
    destruct (as_number dc); [|discriminate].
    intros H. inversion H. reflexivity.
Qed.

Lemma record_counts_truthy (mathematicians_data : list json) :
  forall (entries : list (json * Z)) (academic : json) (n : Z),
    record_counts mathematicians_data = Ok entries ->
    In (academic, n) entries -> (0 < n)%Z -> truthy academic = true.
Proof.
  unfold record_counts.
  induction mathematicians_data as [|d rest IH]; intros entries academic n; simpl.
  - intros H. inversion H. intros [].
  - destruct (record_count d) as [r|] eqn:Hr; simpl; [|discriminate].
    destruct (extend_each _ rest) as [es|] eqn:Hes; simpl; [|discriminate].
    intros H. inversion H; subst entries. intros Hin Hpos.
    apply in_app_or in Hin. destruct Hin as [Hin | Hin].
    + destruct r as [[ac m]|]; [|destruct Hin].
      destruct Hin as [Heq|[]]. inversion Heq; subst ac m.
      now apply (record_count_truthy d academic n).
    + now apply (IH es academic n).
Qed.

(** C8, as the code has it: the scan starts from a maximum of 0 and no
    record, and replaces both on a strictly greater count.  So when some
    record has a positive count, the record reported is the first one
    that attains the highest count; and when no record has a positive
    count, no record is reported. *)
Theorem most_descendants_first_positive_maximum
  (mathematicians_data : list json) (entries : list (json * Z)) :
  record_counts mathematicians_data = Ok entries ->
  (exists before top n after,
      entries = before ++ (top, n) :: after
      /\ (0 < n)%Z
      /\ (forall e, In e before -> (snd e < n)%Z)
      /\ (forall e, In e after -> (snd e <= n)%Z)
      /\ most_descendants mathematicians_data = Ok (Some (top, n)))
  \/ ((forall e, In e entries -> (snd e <= 0)%Z)
      /\ most_descendants mathematicians_data = Ok None).
Proof.
  intros Hes. unfold most_descendants.
  rewrite (scan_descendants_counts _ _ _ Hes). simpl.
  destruct (scan_step_fold entries 0%Z None)
    as [[Heq Hall] | (b & top & n & a & He & Hf & Hlt & Hb & Ha)].
  - right. rewrite Heq. simpl. now split.
  - left. exists b, top, n, a. rewrite Hf. simpl.
    rewrite (record_counts_truthy _ _ top n Hes); [| | exact Hlt].
    + split; [exact He|]. split; [exact Hlt|]. split; [exact Hb|].
      split; [exact Ha | reflexivity].
    + subst entries. apply in_or_app. right. now left.
Qed.

(** C8 fails on a record set whose highest count is 0: the set is not
    empty and no record is reported. *)
Lemma most_descendants_none_when_all_zero :
  most_descendants [person "A" []] = Ok None.
Proof. reflexivity. Qed.

Lemma most_descendants_first_positive_maximum_witness :
  (exists before top n after,
      sample_counts = before ++ (top, n) :: after
      /\ (0 < n)%Z
      /\ (forall e, In e before -> (snd e < n)%Z)
      /\ (forall e, In e after -> (snd e <= n)%Z)
      /\ most_descendants sample_graduates = Ok (Some (top, n)))
  \/ ((forall e, In e sample_counts -> (snd e <= 0)%Z)
      /\ most_descendants sample_graduates = Ok None).
Proof.
  apply (most_descendants_first_positive_maximum sample_graduates sample_counts).
  reflexivity.
Defined.

Example most_descendants_sample :
  most_descendants sample_graduates
  = Ok (Some (JObj [("ID", JStr "2");
                    ("student_data",
                     JObj [("descendants",
                            JObj [("advisees", JList [JStr ""]);
                                  ("descendant_count", JInt 3)])])], 3%Z)).
Proof. reflexivity. Qed.

(** ** Records without advisees *)

Lemma no_advisees_test_collection (advisees : json) :
  is_collection advisees = true ->
  no_advisees_test advisees = empty_or_placeholder advisees.
Proof.
  destruct advisees as [| | | |l|kvs]; try discriminate; intros _.
  - destruct l as [|x [|y l]]; try reflexivity.
    destruct x; reflexivity.
  - destruct kvs; reflexivity.
Qed.

Lemma no_advisees_entries (mathematicians_data : list json) :
  forall (entries : list (json * json)) (acc : list json),
    records_advisees mathematicians_data = Ok entries ->
    no_advisees mathematicians_data acc
    = Ok (acc ++ map fst (filter (fun e => no_advisees_test (snd e)) entries)).
Proof.
  unfold records_advisees.
  induction mathematicians_data as [|d rest IH]; intros entries acc; simpl.
  - intros H. inversion H. simpl. now rewrite app_nil_r.
  - destruct (record_advisees d) as [r|]; simpl; [|discriminate].
    destruct (extend_each _ rest) as [es|] eqn:Hes; simpl; [|discriminate].
    intros H. inversion H; subst entries.
    destruct r as [[sid adv]|]; simpl.
    + destruct (no_advisees_test adv); simpl.
      * rewrite (IH es) by reflexivity. now rewrite <- app_assoc.
      * now apply IH.
    + now apply IH.
Qed.

(** C9: over records whose advisees field is a collection (a mapping or
    a list), the records listed as having no advisees are, in input
    order, exactly those whose collection is empty or is the list with
    the empty string as its only element; that list is treated as the
    empty one. *)
Theorem no_advisees_counts_empty_and_placeholder
  (mathematicians_data : list json) (entries : list (json * json)) :
  records_advisees mathematicians_data = Ok entries ->
  Forall (fun e => is_collection (snd e) = true) entries ->
  no_advisees mathematicians_data []
  = Ok (map fst (filter (fun e => empty_or_placeholder (snd e)) entries))
  /\ no_advisees_test (JList [JStr ""]) = no_advisees_test (JList [])
  /\ no_advisees_test (JList [JStr ""]) = no_advisees_test (JObj [])
  /\ forall advisees, is_collection advisees = true ->
       (no_advisees_test advisees = true
        <-> advisees = JObj [] \/ advisees = JList []
            \/ advisees = JList [JStr ""]).
Proof.
  intros Hes Hcoll. split; [|split; [reflexivity | split; [reflexivity|]]].
  - rewrite (no_advisees_entries _ _ [] Hes). simpl. do 2 f_equal.
    clear Hes. induction Hcoll as [|e es He _ IH]; [reflexivity|]. simpl.
    rewrite (no_advisees_test_collection _ He). now rewrite IH.
  - intros advisees Hc. rewrite (no_advisees_test_collection _ Hc).
    destruct advisees as [| | | |l|kvs]; try discriminate; simpl.
    + destruct l as [|x [|y l]].
      * split; [intros _; right; now left | reflexivity].
      * destruct x as [| | |s| |]; simpl;
          try (split; [discriminate | intros [H|[H|H]]; discriminate]).
        split.
        -- intros H. apply String.eqb_eq in H. subst s. right. now right.
        -- intros [H|[H|H]]; try discriminate. inversion H. reflexivity.
      * destruct x; try destruct s;
          (split; [discriminate | intros [H|[H|H]]; discriminate]).
    + destruct kvs.
      * split; [intros _; now left | reflexivity].
      * split; [discriminate | intros [H|[H|H]]; discriminate].
Qed.

Lemma no_advisees_counts_empty_and_placeholder_witness :
  no_advisees sample_graduates []
  = Ok (map fst (filter (fun e => empty_or_placeholder (snd e)) sample_advisees))
  /\ no_advisees_test (JList [JStr ""]) = no_advisees_test (JList [])
  /\ no_advisees_test (JList [JStr ""]) = no_advisees_test (JObj [])
  /\ forall advisees, is_collection advisees = true ->
       (no_advisees_test advisees = true
        <-> advisees = JObj [] \/ advisees = JList []
            \/ advisees = JList [JStr ""]).
Proof.
  apply (no_advisees_counts_empty_and_placeholder sample_graduates sample_advisees).
  - reflexivity.
  - repeat constructor.
Defined.

Example no_advisees_sample :
  no_advisees sample_graduates [] = Ok [JStr "1"; JStr "2"; JStr "4"].
Proof. reflexivity. Qed.

(** ** The giant-component test *)

Section FloatDivision.

Local Open Scope Z_scope.

Lemma pow2_pos (n : Z) : 0 <= n -> 0 < 2 ^ n.
Proof. intros. apply Z.pow_pos_nonneg; lia. Qed.

Lemma pow2_split (n m : Z) : 0 <= n -> 0 <= m -> 2 ^ (n + m) = 2 ^ n * 2 ^ m.
Proof. intros. apply Z.pow_add_r; lia. Qed.

(** The exponent that [py_truediv] chooses makes the quotient at least 2^52. *)
Lemma truediv_normal (a b : Z) :
  0 < a -> 0 < b ->
  2 ^ 52 * scaled_den b (exponent (py_truediv a b))
  <= scaled_num a (exponent (py_truediv a b)).
Proof.
  intros Ha Hb. unfold py_truediv. cbv [exponent].
  set (e0 := Z.log2 a - Z.log2 b - 52).
  destruct (2 ^ 52 <=? scaled_num a e0 / scaled_den b e0) eqn:Ht.
  - apply Z.leb_le in Ht.
    assert (Hd : 0 < scaled_den b e0).
    { unfold scaled_den. apply Z.mul_pos_pos; [exact Hb | apply pow2_pos; lia]. }
    apply Z.le_trans with (scaled_den b e0 * (scaled_num a e0 / scaled_den b e0)).
    + rewrite (Z.mul_comm (2 ^ 52)). apply Z.mul_le_mono_nonneg_l; lia.
    + now apply Z.mul_div_le.
  - clear Ht.
    destruct (Z.log2_spec a Ha) as [La _].
    destruct (Z.log2_spec b Hb) as [_ Ub].
    pose proof (Z.log2_nonneg a) as Na. pose proof (Z.log2_nonneg b) as Nb.
    set (la := Z.log2 a) in *. set (lb := Z.log2 b) in *.
    unfold scaled_den, scaled_num.
    replace (Z.succ lb) with (lb + 1) in Ub by lia.
    destruct (Z.le_gt_cases 0 (e0 - 1)) as [He | He].
    + rewrite (Z.max_r 0 (e0 - 1)) by lia. rewrite (Z.max_l 0 (- (e0 - 1))) by lia.
      assert (Hs : 2 ^ la = 2 ^ 52 * (2 ^ (lb + 1) * 2 ^ (e0 - 1))).
      { rewrite <- !pow2_split by lia. f_equal. unfold e0. lia. }
      pose proof (pow2_pos (e0 - 1) He) as Hp. change (2 ^ 0) with 1.
      assert (H1 : b * 2 ^ (e0 - 1) <= 2 ^ (lb + 1) * 2 ^ (e0 - 1))
        by (apply Z.mul_le_mono_nonneg_r; lia).
      lia.
    + rewrite (Z.max_l 0 (e0 - 1)) by lia. rewrite (Z.max_r 0 (- (e0 - 1))) by lia.
      change (2 ^ 0) with 1.
      assert (Hs : 2 ^ la * 2 ^ (- (e0 - 1)) = 2 ^ 52 * 2 ^ (lb + 1)).
      { rewrite <- !pow2_split by lia. f_equal. unfold e0. lia. }
      assert (H1 : 2 ^ la * 2 ^ (- (e0 - 1)) <= a * 2 ^ (- (e0 - 1)))
        by (apply Z.mul_le_mono_nonneg_r; [apply Z.lt_le_incl, pow2_pos|]; lia).
      lia.
Qed.

Lemma round_quotient_cases (a b e : Z) :
  let n := scaled_num a e in
  let d := scaled_den b e in
  (round_quotient a b e = n / d /\ 2 * (n mod d) <= d)
  \/ (round_quotient a b e = n / d + 1 /\ d <= 2 * (n mod d)).
Proof.
  intros n d. unfold round_quotient. fold n d.
  destruct (Z.ltb_spec d (2 * (n mod d))); [right; split; [reflexivity | lia]|].
  destruct (Z.eqb_spec d (2 * (n mod d))); cbn [andb].
  - destruct (Z.odd (n / d)); [right | left]; (split; [reflexivity | lia]).
  - left. split; [reflexivity | lia].
Qed.

(** Below 2^53 the rounded quotient exceeds one half exactly when the
    quotient does. *)
Lemma truediv_gt_half (a b : Z) :
  0 < a -> 0 < b < 2 ^ 53 ->
  float_gtb (py_truediv a b) half = (b <? 2 * a).
Proof.
  intros Ha [Hb Hb53].
  pose proof (truediv_normal a b Ha Hb) as Hn.
  assert (Hm : mantissa (py_truediv a b)
               = round_quotient a b (exponent (py_truediv a b))) by reflexivity.
  unfold float_gtb. rewrite Hm.
  set (e := exponent (py_truediv a b)) in *. clearbody e. clear Hm.
  cbv [half mantissa exponent].
  pose proof (round_quotient_cases a b e) as Hr. cbv zeta in Hr.
  set (m := round_quotient a b e) in *. clearbody m.
  unfold scaled_num, scaled_den in *.
  destruct (Z.le_gt_cases 0 e) as [He | He].
  - (* the quotient is at least 2^52 *)
    rewrite (Z.max_r 0 e) in * by lia. rewrite (Z.max_l 0 (- e)) in * by lia.
    change (2 ^ 0) with 1 in *. rewrite Z.mul_1_r in *.
    rewrite (Z.min_r e (-53)) by lia.
    pose proof (pow2_pos e He) as Hp.
    replace (-53 - -53) with 0 by lia. change (2 ^ 0) with 1.
    replace (e - -53) with (e + 53) by lia. rewrite pow2_split by lia.
    assert (Hq : 2 ^ 52 <= a / (b * 2 ^ e)).
    { apply Z.div_le_lower_bound; lia. }
    assert (Hm : 2 ^ 52 <= m) by (destruct Hr as [[-> _] | [-> _]]; lia).
    assert (Hab : b <= a) by nia.
    transitivity true; [apply Z.ltb_lt | symmetry; apply Z.ltb_lt; lia].
    assert (1 * 1 <= 2 ^ e * 2 ^ 52) by (apply Z.mul_le_mono_nonneg; lia).
    nia.
  - rewrite (Z.max_l 0 e) in * by lia. rewrite (Z.max_r 0 (- e)) in * by lia.
    change (2 ^ 0) with 1 in *. rewrite Z.mul_1_r in *.
    set (P' := 2 ^ (- e - 1)).
    assert (HP' : 0 < P') by (apply pow2_pos; lia).
    assert (HP : 2 ^ (- e) = 2 * P').
    { unfold P'. replace (- e) with (1 + (- e - 1)) at 1 by lia.
      now rewrite pow2_split by lia. }
    rewrite HP in *.
    (* the comparison of the two floats is the comparison of [m] with [P'] *)
    assert (Hcmp : (2 ^ 52 * 2 ^ (-53 - Z.min e (-53)) <? m * 2 ^ (e - Z.min e (-53)))
                   = (P' <? m)).
    { destruct (Z.le_gt_cases (-53) e) as [H53 | H53].
      - rewrite (Z.min_r e (-53)) by lia.
        replace (-53 - -53) with 0 by lia. change (2 ^ 0) with 1.
        assert (Hs : 2 ^ 52 = P' * 2 ^ (e - -53)).
        { unfold P'. rewrite <- pow2_split by lia. f_equal. lia. }
        pose proof (pow2_pos (e - -53)) as Hp.
        destruct (Z.ltb_spec P' m); [apply Z.ltb_lt | apply Z.ltb_ge]; nia.
      - rewrite (Z.min_l e (-53)) by lia.
        replace (e - e) with 0 by lia. change (2 ^ 0) with 1.
        assert (Hs : 2 ^ 52 * 2 ^ (-53 - e) = P').
        { unfold P'. rewrite <- pow2_split by lia. f_equal. lia. }
        rewrite Hs, Z.mul_1_r. reflexivity. }
    rewrite Hcmp. clear Hcmp.
    pose proof (Z.div_mod (a * (2 * P')) b ltac:(lia)) as Hdm.
    pose proof (Z.mod_pos_bound (a * (2 * P')) b Hb) as Hrb.
    set (q := a * (2 * P') / b) in *. set (r := (a * (2 * P')) mod b) in *.
    clearbody q r.
    destruct (Z.ltb_spec b (2 * a)) as [Hgt | Hle].
    + apply Z.ltb_lt.
      destruct (Z.le_gt_cases b a) as [Hba | Hba].
      * assert (2 * P' <= q) by nia.
        destruct Hr as [[-> _] | [-> _]]; lia.
      * (* a < b: the scale is at least 2^53, hence above b *)
        assert (H52 : 2 ^ 52 < 2 * P') by nia.
        assert (H53 : 2 ^ 53 <= 2 * P').
        { rewrite <- HP in *. 
          assert (52 < - e) by (apply (Z.pow_lt_mono_r_iff 2); lia).
          apply Z.pow_le_mono_r; lia. }
        assert (Hq : P' <= q) by nia.
        destruct Hr as [[-> Hr] | [-> Hr]]; [|lia].
        destruct (Z.eq_dec q P') as [-> | Hne]; [|lia].
        nia.
    + apply Z.ltb_ge.
      assert (Hq : q <= P') by nia.
      destruct Hr as [[-> Hr] | [-> Hr]]; [lia|].
      destruct (Z.eq_dec q P') as [-> | Hne]; [|lia].
      nia.
Qed.

(** 4/5 and 1/3 as binary64 numbers; and past 2^53 a quotient above one
    half can round to one half. *)
Example truediv_samples :
  py_truediv 4 5 = {| mantissa := 7205759403792794; exponent := -53 |}
  /\ py_truediv 1 3 = {| mantissa := 6004799503160661; exponent := -54 |}
  /\ float_gtb (py_truediv (2 ^ 52 + 1) (2 ^ 53 + 1)) half = false.
Proof. repeat split; vm_compute; reflexivity. Qed.

End FloatDivision.

Section Sorting.

Context {A : Type} (key : A -> Z).

Lemma insert_desc_perm (x : A) (l : list A) :
  Permutation (insert_desc key x l) (x :: l).
Proof.
  induction l as [|y l IH]; simpl; [apply Permutation_refl|].
  destruct (key x <? key y)%Z; [|apply Permutation_refl].
  apply perm_trans with (y :: x :: l); [now apply perm_skip | apply perm_swap].
Qed.

Lemma sorted_desc_perm (l : list A) : Permutation (sorted_desc key l) l.
Proof.
  induction l as [|x l IH]; simpl; [apply perm_nil|].
  apply perm_trans with (x :: sorted_desc key l);
    [apply insert_desc_perm | now apply perm_skip].
Qed.

Lemma sorted_desc_In (l : list A) (x : A) : In x (sorted_desc key l) <-> In x l.
Proof.
  split; apply Permutation_in;
    [apply sorted_desc_perm | apply Permutation_sym, sorted_desc_perm].
Qed.

Lemma insert_desc_descending (x : A) (l : list A) :
  descending key l -> descending key (insert_desc key x l).
Proof.
  unfold descending. induction l as [|y l IH]; intros Hs; simpl.
  - constructor; constructor.
  - apply StronglySorted_inv in Hs. destruct Hs as [Hl Hy].
    destruct (Z.ltb_spec (key x) (key y)).
    + constructor; [now apply IH|].
      apply Forall_forall. intros z Hz.
      apply (Permutation_in _ (insert_desc_perm x l)) in Hz.
      destruct Hz as [<-|Hz]; [lia|].
      rewrite Forall_forall in Hy. now apply Hy.
    + constructor; [now constructor|].
      constructor; [exact H|].
      rewrite Forall_forall in *. intros z Hz. specialize (Hy z Hz). lia.
Qed.

Lemma sorted_desc_descending (l : list A) :
  descending key (sorted_desc key l).
Proof.
  induction l as [|x l IH]; simpl; [constructor | now apply insert_desc_descending].
Qed.

(** The first element of the sorted list has the greatest key. *)
Lemma sorted_desc_head (l : list A) (h : A) (t : list A) :
  sorted_desc key l = h :: t ->
  In h l /\ forall x, In x l -> (key x <= key h)%Z.
Proof.
  intros Hs. split.
  - apply sorted_desc_In. rewrite Hs. now left.
  - intros x Hx. apply sorted_desc_In in Hx. rewrite Hs in Hx.
    pose proof (sorted_desc_descending l) as Hd. rewrite Hs in Hd.
    apply StronglySorted_inv in Hd. destruct Hd as [_ Hd].
    destruct Hx as [<-|Hx]; [lia|].
    rewrite Forall_forall in Hd. now apply Hd.
Qed.

End Sorting.

Lemma visit_seen (x : node) (ws : list node) :
  forall seen nextlevel, In x seen -> In x (fst (visit ws seen nextlevel)).
Proof.
  induction ws as [|w ws IH]; intros seen nextlevel Hx; simpl; [exact Hx|].
  destruct (mem w seen); apply IH; [exact Hx|].
  apply in_or_app. now left.
Qed.

Lemma visit_level_seen (H : Graph) (x : node) (thislevel : list node) :
  forall seen nextlevel,
    In x seen -> In x (fst (visit_level H thislevel seen nextlevel)).
Proof.
  induction thislevel as [|v rest IH]; intros seen nextlevel Hx; simpl; [exact Hx|].
  pose proof (visit_seen x (neighbours H v) seen nextlevel Hx) as Hv.
  destruct (visit (neighbours H v) seen nextlevel) as [seen' next'].
  now apply IH.
Qed.

Lemma plain_bfs_seen (H : Graph) (x : node) (fuel : nat) :
  forall seen nextlevel, In x seen -> In x (plain_bfs fuel H seen nextlevel).
Proof.
  induction fuel as [|fuel IH]; intros seen nextlevel Hx; simpl; [exact Hx|].
  destruct nextlevel as [|v rest]; [exact Hx|].
  pose proof (visit_level_seen H x (v :: rest) seen [] Hx) as Hv.
  destruct (visit_level H (v :: rest) seen []) as [seen' next'].
  now apply IH.
Qed.

Lemma components_from_nonempty (H : Graph) (vs : list node) :
  forall seen c, In c (components_from H vs seen) -> (0 < len c)%Z.
Proof.
  induction vs as [|v rest IH]; intros seen c; simpl; [intros []|].
  destruct (mem v seen); [apply IH|].
  intros [<-|Hc]; [|now apply IH in Hc].
  assert (Hv : In v (plain_bfs (List.length H) H [v] [v]))
    by (apply plain_bfs_seen; now left).
  unfold len. destruct (plain_bfs _ H [v] [v]); [destruct Hv | simpl; lia].
Qed.

Lemma connected_components_exist (H : Graph) :
  (0 < len H)%Z -> connected_components H <> [].
Proof.
  unfold connected_components. destruct H as [|[v vs] H]; [unfold len; simpl; lia|].
  intros _. simpl. discriminate.
Qed.

(** C6: on a non-empty graph (of fewer than 2^53 nodes, below which the
    division in binary64 decides as the exact quotient does) the test
    answers, and its answer is true exactly when the largest connected
    component has more than half of the nodes: false at exactly half,
    true at half plus one node. *)
Theorem giant_component_strict_majority (H : Graph) :
  (0 < len H < 2 ^ 53)%Z ->
  exists largest,
    In largest (connected_components H)
    /\ (forall c, In c (connected_components H) -> (len c <= len largest)%Z)
    /\ giant_component H = Some (len H <? 2 * len largest)%Z
    /\ ((2 * len largest = len H)%Z -> giant_component H = Some false)
    /\ ((2 * len largest = len H + 2)%Z -> giant_component H = Some true).
Proof.
  intros [Hpos Hlt]. unfold giant_component.
  destruct (Z.ltb_spec 0 (len H)) as [_|]; [|lia].
  destruct (sorted_desc len (connected_components H)) as [|largest rest] eqn:Hs.
  - exfalso. apply (connected_components_exist H Hpos).
    apply Permutation_nil. rewrite <- Hs. apply sorted_desc_perm.
  - destruct (sorted_desc_head len _ _ _ Hs) as [Hin Hmax].
    assert (Hl : (0 < len largest)%Z)
      by (apply (components_from_nonempty H _ _ _ Hin)).
    exists largest. rewrite truediv_gt_half by lia.
    split; [exact Hin|]. split; [exact Hmax|]. split; [reflexivity|].
    split; intros Heq; f_equal; [apply Z.ltb_ge | apply Z.ltb_lt]; lia.
Qed.

Example giant_component_boundary :
  giant_component balanced_graph = Some false
  /\ giant_component majority_graph = Some true.
Proof. split; reflexivity. Qed.

Lemma giant_component_strict_majority_witness :
  exists largest,
    In largest (connected_components balanced_graph)
    /\ (forall c, In c (connected_components balanced_graph) ->
          (len c <= len largest)%Z)
    /\ giant_component balanced_graph
       = Some (len balanced_graph <? 2 * len largest)%Z
    /\ ((2 * len largest = len balanced_graph)%Z ->
        giant_component balanced_graph = Some false)
    /\ ((2 * len largest = len balanced_graph + 2)%Z ->
        giant_component balanced_graph = Some true).
Proof.
  apply (giant_component_strict_majority balanced_graph).
  split; reflexivity.
Defined.

(** ** The advisor leaderboard *)

Section Precedes.

Context {A : Type}.

Lemma precedes_In (x y : A) (l : list A) : precedes x y l -> In x l /\ In y l.
Proof.
  induction 1 as [l Hy | z l _ [Hx Hy]]; split; simpl; auto.
Qed.

Lemma precedes_app_l (x y : A) (l l' : list A) :
  precedes x y l -> precedes x y (l ++ l').
Proof.
  induction 1 as [l Hy | z l _ IH]; simpl.
  - constructor. apply in_or_app. now left.
  - now constructor.
Qed.

Lemma precedes_app_r (x y : A) (l l' : list A) :
  precedes x y l' -> precedes x y (l ++ l').
Proof. intros H. induction l as [|z l IH]; simpl; [exact H | now constructor]. Qed.

Lemma precedes_split (x y : A) (l l' : list A) :
  In x l -> In y l' -> precedes x y (l ++ l').
Proof.
  intros Hx Hy. induction l as [|z l IH]; [destruct Hx|].
  simpl. destruct Hx as [->|Hx].
  - constructor. apply in_or_app. now right.
  - constructor. now apply IH.
Qed.

(** Where [x] and [y] sit when [x] precedes [y] around an element [a] *)
Lemma precedes_insert (x y a : A) (l1 l2 : list A) :
  precedes x y (l1 ++ a :: l2) ->
  precedes x y (l1 ++ l2) \/ (x = a /\ In y l2) \/ (y = a /\ In x l1).
Proof.
  induction l1 as [|z l1 IH]; simpl; intros H.
  - inversion H; subst; [right; left; now split | now left].
  - inversion H; subst.
    + apply in_app_or in H1. destruct H1 as [Hy | [-> | Hy]].
      * left. constructor. apply in_or_app. now left.
      * right. right. split; [reflexivity | now left].
      * left. constructor. apply in_or_app. now right.
    + destruct (IH H1) as [Hp | [[-> Hy] | [-> Hx]]].
      * left. now constructor.
      * right. left. now split.
      * right. right. split; [reflexivity | now right].
Qed.

Lemma precedes_firstn (x y : A) (n : nat) (l : list A) :
  precedes x y (firstn n l) -> precedes x y l.
Proof.
  intros H. rewrite <- (firstn_skipn n l). now apply precedes_app_l.
Qed.

Lemma precedes_map {B} (f : A -> B) (x y : A) (l : list A) :
  precedes x y l -> precedes (f x) (f y) (map f l).
Proof.
  induction 1 as [l Hy | z l _ IH]; simpl; constructor; [now apply in_map | exact IH].
Qed.

Lemma precedes_map_inv {B} (f : A -> B) (u v : B) (l : list A) :
  precedes u v (map f l) ->
  exists x y, u = f x /\ v = f y /\ precedes x y l.
Proof.
  induction l as [|z l IH]; simpl; intros H; inversion H; subst.
  - apply in_map_iff in H1. destruct H1 as (y & <- & Hy).
    exists z, y. repeat split. now constructor.
  - destruct (IH H1) as (x & y & -> & -> & Hp).
    exists x, y. repeat split. now constructor.
Qed.

(** Two different elements of a list: one precedes the other. *)
Lemma precedes_total (x y : A) (l : list A) :
  In x l -> In y l -> x <> y -> precedes x y l \/ precedes y x l.
Proof.
  induction l as [|z l IH]; [intros []|].
  intros [->|Hx] [->|Hy] Hne.
  - now destruct Hne.
  - left. now constructor.
  - right. now constructor.
  - destruct (IH Hx Hy Hne); [left | right]; now constructor.
Qed.

End Precedes.

Section Stability.

Context {A : Type} (key : A -> Z).

Lemma insert_desc_split (x : A) (l : list A) :
  exists l1 l2, l = l1 ++ l2 /\ insert_desc key x l = l1 ++ x :: l2
                /\ forall z, In z l1 -> (key x < key z)%Z.
Proof.
  induction l as [|y l (l1 & l2 & Hl & Hi & Hk)]; simpl.
  - exists [], []. repeat split. intros z [].
  - destruct (Z.ltb_spec (key x) (key y)).
    + exists (y :: l1), l2. subst l. rewrite Hi. repeat split.
      intros z [<-|Hz]; [exact H | now apply Hk].
    + exists [], (y :: l). repeat split. intros z [].
Qed.

(** Sorting is stable: elements with equal keys keep their order. *)
Lemma sorted_desc_stable (l : list A) (x y : A) :
  precedes x y (sorted_desc key l) -> key x = key y -> precedes x y l.
Proof.
  revert x y. induction l as [|a l IH]; intros x y; simpl.
  - intros H. inversion H.
  - destruct (insert_desc_split a (sorted_desc key l)) as (l1 & l2 & Hl & -> & Hk).
    intros Hp Heq. apply precedes_insert in Hp.
    destruct Hp as [Hp | [[-> Hy] | [-> Hx]]].
    + constructor. apply IH; [now rewrite Hl | exact Heq].
    + constructor. apply (sorted_desc_In key). rewrite Hl.
      apply in_or_app. now right.
    + specialize (Hk x Hx). lia.
Qed.

Lemma descending_precedes (l : list A) (x y : A) :
  descending key l -> precedes x y l -> (key y <= key x)%Z.
Proof.
  intros Hd Hp. induction Hp as [l Hy | z l _ IH];
    apply StronglySorted_inv in Hd; destruct Hd as [Hd Hall].
  - rewrite Forall_forall in Hall. now apply Hall.
  - now apply IH.
Qed.

End Stability.

Lemma lookup_In {V} (k : string) (v : V) (d : list (string * V)) :
  NoDup (map fst d) -> In (k, v) d -> lookup k d = Some v.
Proof.
  induction d as [|[k' v'] d IH]; simpl; [intros _ []|].
  intros Hnd [Heq | Hin].
  - inversion Heq; subst. now rewrite String.eqb_refl.
  - inversion Hnd; subst. destruct (String.eqb_spec k k') as [->|Hne].
    + exfalso. apply H1. change k' with (fst (k', v)). now apply in_map.
    + now apply IH.
Qed.

Lemma lookup_app {V} (k : string) (d d' : list (string * V)) :
  lookup k (d ++ d')
  = match lookup k d with Some v => Some v | None => lookup k d' end.
Proof.
  induction d as [|[k' v'] d IH]; simpl; [reflexivity|].
  now destruct (k =? k').
Qed.

Lemma count_of_increment (id k : string) (c : Counter) :
  count_of id (increment k c)
  = (count_of id c + if (id =? k)%string then 1 else 0)%Z.
Proof.
  unfold count_of. induction c as [|[k' n] c IH]; simpl.
  - rewrite (String.eqb_sym id k). destruct (k =? id); simpl; lia.
  - destruct (String.eqb_spec k k') as [->|Hne]; simpl.
    + destruct (id =? k'); lia.
    + destruct (String.eqb_spec id k') as [->|Hne'].
      * destruct (String.eqb_spec k' k); [congruence | lia].
      * exact IH.
Qed.

Lemma keys_increment (k : string) (c : Counter) :
  map fst (increment k c)
  = if in_dec string_dec k (map fst c) then map fst c else map fst c ++ [k].
Proof.
  induction c as [|[k' n] c IH]; simpl; [reflexivity|].
  destruct (String.eqb_spec k k') as [->|Hne]; simpl.
  - destruct (string_dec k' k'); [reflexivity | congruence].
  - rewrite IH. destruct (string_dec k' k); [congruence|].
    now destruct (in_dec string_dec k (map fst c)).
Qed.

Lemma lookup_setitem {V} (id k : string) (v : V) (d : list (string * V)) :
  lookup id (setitem k v d) = if id =? k then Some v else lookup id d.
Proof.
  induction d as [|[k' v'] d IH]; simpl.
  - rewrite (String.eqb_sym id k). reflexivity.
  - destruct (String.eqb_spec k k') as [->|Hne]; simpl.
    + now destruct (id =? k').
    + destruct (String.eqb_spec id k') as [->|Hne'].
      * destruct (String.eqb_spec k' k); [congruence | reflexivity].
      * exact IH.
Qed.

Lemma fold_count_link (links : list AdvisorLink) :
  forall st : Counter * names,
    fold_left count_link links st
    = (tally links (fst st),
       fold_left (fun d link => setitem (fst link) (snd link) d) links (snd st)).
Proof.
  induction links as [|l links IH]; intros [c d]; [reflexivity|].
  simpl. now rewrite IH.
Qed.

Lemma occurrences_cons (id : string) (link : AdvisorLink)
  (links : list AdvisorLink) :
  occurrences id (link :: links)
  = ((if (fst link =? id)%string then 1 else 0) + occurrences id links)%Z.
Proof.
  unfold occurrences, len. simpl.
  destruct (fst link =? id); [|lia].
  change (List.length (link :: filter (fun l => fst l =? id) links))
    with (S (List.length (filter (fun l => fst l =? id) links))).
  lia.
Qed.

Lemma count_of_tally (id : string) (links : list AdvisorLink) :
  forall c, count_of id (tally links c) = (count_of id c + occurrences id links)%Z.
Proof.
  induction links as [|[k v] links IH]; intros c.
  - unfold occurrences, len. simpl. lia.
  - change (tally ((k, v) :: links) c) with (tally links (increment k c)).
    rewrite IH, count_of_increment, occurrences_cons. simpl fst.
    rewrite (String.eqb_sym id k). lia.
Qed.

Lemma keys_tally_NoDup (links : list AdvisorLink) :
  forall c, NoDup (map fst c) -> NoDup (map fst (tally links c)).
Proof.
  induction links as [|[k v] links IH]; intros c Hc; [exact Hc|].
  unfold tally in *. simpl. apply IH. rewrite keys_increment.
  destruct (in_dec string_dec k (map fst c)) as [Hin|Hnin]; [exact Hc|].
  apply NoDup_app; [exact Hc | repeat constructor; intros [] |].
  intros x Hx [<-|[]]. contradiction.
Qed.

Lemma keys_tally_In (links : list AdvisorLink) (id : string) :
  forall c, In id (map fst (tally links c))
            <-> In id (map fst c) \/ In id (map fst links).
Proof.
  induction links as [|[k v] links IH]; intros c; simpl.
  - tauto.
  - unfold tally in *. simpl. rewrite IH, keys_increment.
    destruct (in_dec string_dec k (map fst c)) as [Hin|Hnin].
    + split; [tauto|]. intros [H|[<-|H]]; auto.
    + rewrite in_app_iff. simpl. tauto.
Qed.

Lemma tally_app (l1 l2 : list AdvisorLink) (c : Counter) :
  tally (l1 ++ l2) c = tally l2 (tally l1 c).
Proof. apply fold_left_app. Qed.

Lemma in_split_first (x : string) (l : list string) :
  In x l -> exists l1 l2, l = l1 ++ x :: l2 /\ ~ In x l1.
Proof.
  induction l as [|y l IH]; [intros []|].
  destruct (string_dec y x) as [->|Hne].
  - intros _. exists [], l. split; [reflexivity | intros []].
  - intros [Heq|Hin]; [congruence|].
    destruct (IH Hin) as (l1 & l2 & -> & Hn).
    exists (y :: l1), l2. split; [reflexivity|].
    intros [Heq|H]; [congruence | contradiction].
Qed.

(** The counter lists the ids in the order of their first occurrence. *)
Lemma keys_tally_order (links : list AdvisorLink) (x y : string) :
  precedes x y (map fst (tally links [])) ->
  first_seen_before x y (map fst links).
Proof.
  induction links as [|[k v] links IH] using rev_ind; [intros H; inversion H|].
  rewrite tally_app.
  change (tally [(k, v)] (tally links [])) with (increment k (tally links [])).
  rewrite keys_increment, map_app.
  change (map fst [(k, v)]) with [k].
  assert (Hext : first_seen_before x y (map fst links) ->
                 first_seen_before x y (map fst links ++ [k])).
  { intros (l1 & l2 & -> & Hx & Hy & Hne). exists l1, (l2 ++ [k]).
    repeat split; auto. now rewrite <- app_assoc. }
  destruct (in_dec string_dec k (map fst (tally links []))) as [Hin|Hnin].
  - intros Hp. apply Hext, IH, Hp.
  - intros Hp.
    change (map fst (tally links []) ++ [k])
      with (map fst (tally links []) ++ k :: []) in Hp.
    apply precedes_insert in Hp.
    destruct Hp as [Hp | [[_ []] | [-> Hx]]].
    + rewrite app_nil_r in Hp. apply Hext, IH, Hp.
    + assert (Hk : ~ In k (map fst links)).
      { intros H. apply Hnin. apply keys_tally_In. now right. }
      apply keys_tally_In in Hx. destruct Hx as [[] | Hx].
      destruct (in_split_first x _ Hx) as (l1 & l2 & Hl & Hn).
      exists l1, (l2 ++ [k]).
      split; [rewrite app_comm_cons, app_assoc; f_equal; exact Hl|].
      split; [exact Hn|]. split.
      * intros H. apply Hk.
        replace (map fst links) with (l1 ++ x :: l2) by (symmetry; exact Hl).
        apply in_or_app. now left.
      * intros ->. contradiction.
Qed.

Lemma first_seen_before_asym (x y : string) (ids : list string) :
  first_seen_before x y ids -> first_seen_before y x ids -> False.
Proof.
  intros (l1 & l2 & H1 & Hx1 & Hy1 & Hne) (k1 & k2 & H2 & Hy2 & Hx2 & _).
  subst ids. revert k1 H2 Hy2 Hx2.
  induction l1 as [|z l1 IH]; intros k1 H2 Hy2 Hx2.
  - destruct k1 as [|z k1]; simpl in H2; injection H2 as Hhd Htl.
    + congruence.
    + apply Hx2. left. congruence.
  - destruct k1 as [|z' k1]; simpl in H2; injection H2 as Hhd Htl.
    + apply Hy1. left. congruence.
    + apply (IH (fun H => Hx1 (or_intror H)) (fun H => Hy1 (or_intror H)) k1 Htl);
        intros H; [apply Hy2 | apply Hx2]; now right.
Qed.

Lemma names_fold (id : string) (links : list AdvisorLink) :
  forall d : names,
    lookup id (fold_left (fun d link => setitem (fst link) (snd link) d) links d)
    = match last_name id links with Some v => Some v | None => lookup id d end.
Proof.
  unfold last_name.
  induction links as [|[k v] links IH]; intros d; simpl; [reflexivity|].
  rewrite IH, lookup_app, lookup_setitem. simpl.
  destruct (lookup id (rev links)); [reflexivity|].
  now destruct (id =? k).
Qed.

Lemma last_name_occurs (id : string) (links : list AdvisorLink) :
  In id (map fst links) -> exists v, last_name id links = Some v.
Proof.
  unfold last_name. intros H. rewrite in_map_iff in H.
  destruct H as ([k v] & <- & Hin). apply in_rev in Hin. simpl.
  induction (rev links) as [|[k' v'] l IH]; [destruct Hin|]. simpl.
  destruct (String.eqb_spec k k'); [now eexists|].
  destruct Hin as [Heq|Hin]; [congruence | now apply IH].
Qed.

Lemma count_advisors_links (mathematicians_data : list json) :
  forall (links : list AdvisorLink) (st : Counter * names),
    all_links mathematicians_data = Ok links ->
    count_advisors mathematicians_data st = Ok (fold_left count_link links st).
Proof.
  unfold all_links.
  induction mathematicians_data as [|d rest IH]; intros links st; simpl.
  - intros H. inversion H. reflexivity.
  - destruct (extract_advisor_info d) as [adv|]; simpl; [|discriminate].
    destruct (extend_each extract_advisor_info rest) as [ls|]; simpl; [|discriminate].
    intros H. inversion H. rewrite fold_left_app. now apply IH.
Qed.

Lemma In_firstn {A} (x : A) (n : nat) (l : list A) :
  In x (firstn n l) -> In x l.
Proof.
  intros H. rewrite <- (firstn_skipn n l). apply in_or_app. now left.
Qed.

Lemma top_advisors_rows (mathematicians_data : list json)
  (links : list AdvisorLink) :
  all_links mathematicians_data = Ok links ->
  top_advisors mathematicians_data
  = print_rows (snd (fold_left count_link links ([], [])))
      (most_common 10%nat (tally links [])).
Proof.
  intros Hl. unfold top_advisors.
  rewrite (count_advisors_links _ _ _ Hl). simpl.
  now rewrite fold_count_link.
Qed.

Lemma print_rows_strings (d : names) (ranking : Counter) :
  (forall row, In row ranking -> exists s, snd (fst (row_of d row)) = JStr s) ->
  exists rows,
    print_rows d ranking = (rows, Ok tt)
    /\ map printed rows = map (row_of d) ranking.
Proof.
  induction ranking as [|[id n] ranking IH]; intros Hs.
  - exists []. split; reflexivity.
  - destruct (Hs (id, n) (or_introl eq_refl)) as (s & Hname).
    destruct IH as (rows & Hrows & Hmap); [intros row Hrow; apply Hs; now right|].
    exists ((id, s, n) :: rows). unfold row_of in Hname. simpl in Hname. split.
    + simpl. rewrite Hname. simpl. now rewrite Hrows.
    + simpl. rewrite Hmap. unfold row_of at 2. simpl. now rewrite Hname.
Qed.

Lemma print_rows_stops (d : names) (before after : Counter) (row : string * Z)
  (e : exn) :
  (forall r, In r before -> exists s, snd (fst (row_of d r)) = JStr s) ->
  format_s (snd (fst (row_of d row))) = Raise e ->
  exists rows,
    print_rows d (before ++ row :: after) = (rows, Raise e)
    /\ map printed rows = map (row_of d) before.
Proof.
  intros Hs He. destruct row as [id n]. unfold row_of in He. simpl in He.
  induction before as [|[id' n'] before IH].
  - exists []. split; [|reflexivity]. simpl. now rewrite He.
  - destruct (Hs (id', n') (or_introl eq_refl)) as (s & Hname).
    destruct IH as (rows & Hrows & Hmap); [intros r Hr; apply Hs; now right|].
    exists ((id', s, n') :: rows). unfold row_of in Hname. simpl in Hname. split.
    + simpl. rewrite Hname. simpl. now rewrite Hrows.
    + simpl. rewrite Hmap. unfold row_of at 2. simpl. now rewrite Hname.
Qed.

Lemma counter_entry (links : list AdvisorLink) (id : string) (n : Z) :
  In (id, n) (tally links []) ->
  n = occurrences id links /\ In id (map fst links).
Proof.
  intros Hin. split.
  - pose proof (count_of_tally id links []) as Hc.
    unfold count_of in Hc at 1.
    rewrite (lookup_In id n (tally links [])) in Hc; [exact Hc | | exact Hin].
    apply keys_tally_NoDup. constructor.
  - assert (H : In id (map fst (tally links [])))
      by (change id with (fst (id, n)); now apply in_map).
    apply keys_tally_In in H. now destruct H as [[]|H].
Qed.

Lemma counter_has (links : list AdvisorLink) (id : string) :
  In id (map fst links) -> In (id, occurrences id links) (tally links []).
Proof.
  intros Hin.
  assert (H : In id (map fst (tally links []))) by (apply keys_tally_In; now right).
  apply in_map_iff in H. destruct H as ([k n] & Hk & Hp). simpl in Hk. subst k.
  now rewrite <- (proj1 (counter_entry links id n Hp)).
Qed.

Lemma lookup_Some_In {V} (k : string) (v : V) (d : list (string * V)) :
  lookup k d = Some v -> In (k, v) d.
Proof.
  induction d as [|[k' v'] d IH]; simpl; [discriminate|].
  destruct (String.eqb_spec k k') as [->|Hne].
  - intros H. injection H as ->. now left.
  - intros H. right. now apply IH.
Qed.

Lemma last_name_In (id : string) (name : json) (links : list AdvisorLink) :
  last_name id links = Some name -> In (id, name) links.
Proof.
  unfold last_name. intros H. apply in_rev. now apply lookup_Some_In.
Qed.

Lemma names_of_links (links : list AdvisorLink) (id : string) :
  In id (map fst links) ->
  exists v, last_name id links = Some v
            /\ lookup id (snd (fold_left count_link links ([], []))) = Some v.
Proof.
  intros Hid. destruct (last_name_occurs id links Hid) as (v & Hv).
  exists v. split; [exact Hv|]. rewrite fold_count_link. simpl.
  now rewrite names_fold, Hv.
Qed.

(** The ranking has at most ten entries; the count of an entry is the
    number of links with that advisor id and its name is the one on the
    last such link; the entries are in descending order of count, ties
    in the order of first encounter; an advisor left out has no more
    links than any advisor in it. *)
Lemma table_of_ranking (links : list AdvisorLink) :
  (List.length (table_of links) <= 10)%nat
  /\ (forall id name n, In (id, name, n) (table_of links) ->
        n = occurrences id links /\ last_name id links = Some name)
  /\ (forall r1 r2, precedes r1 r2 (table_of links) ->
        (snd r2 <= snd r1)%Z
        /\ (snd r1 = snd r2 ->
            first_seen_before (fst (fst r1)) (fst (fst r2)) (map fst links)))
  /\ (forall id, In id (map fst links) ->
        (exists name, In (id, name, occurrences id links) (table_of links))
        \/ (List.length (table_of links) = 10%nat
            /\ forall r, In r (table_of links) -> (occurrences id links <= snd r)%Z)).
Proof.
  unfold table_of.
  set (d := snd (fold_left count_link links ([], []))).
  set (counter := tally links []).
  set (ranking := sorted_desc snd counter).
  assert (Hd : forall id, In id (map fst links) ->
                          exists v, last_name id links = Some v /\ lookup id d = Some v)
    by (intros id Hid; now apply names_of_links).
  assert (Hsorted : descending snd ranking) by apply sorted_desc_descending.
  split; [|split; [|split]].
  - rewrite length_map. apply firstn_le_length.
  - intros id name n Hin. apply in_map_iff in Hin.
    destruct Hin as ([k m] & Heq & Hin). unfold row_of in Heq. simpl in Heq.
    injection Heq as -> Hname ->.
    apply In_firstn in Hin. apply (proj1 (sorted_desc_In snd _ _)) in Hin.
    destruct (counter_entry links id n Hin) as [Hn Hid].
    split; [exact Hn|].
    destruct (Hd id Hid) as (v & Hv & Hlk). rewrite Hlk in Hname. congruence.
  - intros r1 r2 Hp. apply precedes_map_inv in Hp.
    destruct Hp as (p1 & p2 & -> & -> & Hp). simpl.
    apply precedes_firstn in Hp. fold ranking in Hp. split.
    + now apply (descending_precedes snd ranking).
    + intros Heq. apply keys_tally_order. apply precedes_map.
      now apply (sorted_desc_stable snd).
  - intros id Hid. pose proof (counter_has links id Hid) as Hin.
    apply (proj2 (sorted_desc_In snd _ _)) in Hin. fold counter ranking in Hin.
    rewrite <- (firstn_skipn 10%nat ranking) in Hin. apply in_app_or in Hin.
    destruct Hin as [Hin | Hin].
    + left. destruct (Hd id Hid) as (v & _ & Hlk). exists v.
      apply in_map_iff. exists (id, occurrences id links). split; [|exact Hin].
      unfold row_of. simpl. now rewrite Hlk.
    + right. rewrite length_map. unfold most_common. fold ranking. split.
      * apply firstn_length_le.
        destruct (Nat.le_gt_cases 10%nat (List.length ranking)) as [H|H]; [exact H|].
        rewrite skipn_all2 in Hin by lia. destruct Hin.
      * intros r Hr. apply in_map_iff in Hr. destruct Hr as (p & <- & Hp). simpl.
        apply (descending_precedes snd ranking p (id, occurrences id links) Hsorted).
        rewrite <- (firstn_skipn 10%nat ranking). now apply precedes_split.
Qed.

(** When the names of the links are strings, step 3 prints the whole
    ranking and ends. *)
Lemma top_advisors_prints_table (mathematicians_data : list json)
  (links : list AdvisorLink) :
  all_links mathematicians_data = Ok links ->
  (forall link, In link links -> exists s, snd link = JStr s) ->
  exists rows,
    top_advisors mathematicians_data = (rows, Ok tt)
    /\ map printed rows = table_of links.
Proof.
  intros Hl Hs. rewrite (top_advisors_rows _ _ Hl). unfold table_of.
  apply print_rows_strings. intros [id n] Hin. simpl.
  apply In_firstn in Hin. apply (proj1 (sorted_desc_In snd _ _)) in Hin.
  destruct (counter_entry links id n Hin) as [_ Hid].
  destruct (names_of_links links id Hid) as (v & Hv & Hlk).
  destruct (Hs (id, v) (last_name_In _ _ _ Hv)) as (s & Hstr). simpl in Hstr.
  exists s. unfold row_of. simpl. now rewrite Hlk, Hstr.
Qed.

(** C7: when the names of the advisor links are strings, step 3 prints
    its table to the end.  The table has at most ten rows; the count of
    a row is the number of links with that advisor id, one per
    occurrence, and its name is the one on the last such link; the rows
    are in descending order of count, and of two rows with the same
    count the advisor encountered first comes first; an advisor left out
    of the table has no more links than any advisor in it. *)
Theorem top_advisors_ranking (mathematicians_data : list json)
  (links : list AdvisorLink) :
  all_links mathematicians_data = Ok links ->
  (forall link, In link links -> exists s, snd link = JStr s) ->
  exists rows : list (string * string * Z),
    top_advisors mathematicians_data = (rows, Ok tt)
    /\ (List.length rows <= 10)%nat
    /\ (forall id name n, In (id, name, n) rows ->
          n = occurrences id links /\ last_name id links = Some (JStr name))
    /\ (forall r1 r2, precedes r1 r2 rows ->
          (snd r2 <= snd r1)%Z
          /\ (snd r1 = snd r2 ->
              first_seen_before (fst (fst r1)) (fst (fst r2)) (map fst links)))
    /\ (forall x y namex namey n,
          In (x, namex, n) rows -> In (y, namey, n) rows ->
          first_seen_before x y (map fst links) ->
          precedes (x, namex, n) (y, namey, n) rows)
    /\ (forall id, In id (map fst links) ->
          (exists name, In (id, name, occurrences id links) rows)
          \/ (List.length rows = 10%nat
              /\ forall r, In r rows -> (occurrences id links <= snd r)%Z)).
Proof.
  intros Hl Hs.
  destruct (top_advisors_prints_table _ _ Hl Hs) as (rows & Hrun & Hmap).
  destruct (table_of_ranking links) as (Hlen & Hrow & Hord & Hall).
  rewrite <- Hmap in Hlen, Hrow, Hord, Hall. rewrite length_map in Hlen, Hall.
  assert (Hprec : forall r1 r2, precedes r1 r2 rows ->
             (snd r2 <= snd r1)%Z
             /\ (snd r1 = snd r2 ->
                 first_seen_before (fst (fst r1)) (fst (fst r2)) (map fst links))).
  { intros r1 r2 Hp. apply (Hord (printed r1) (printed r2)).
    now apply precedes_map. }
  exists rows. split; [exact Hrun|]. split; [exact Hlen|].
  split; [|split; [exact Hprec|split]].
  - intros id name n Hin. apply (Hrow id (JStr name) n).
    change (id, JStr name, n) with (printed (id, name, n)). now apply in_map.
  - intros x y namex namey n Hx Hy Hxy.
    assert (Hne : (x, namex, n) <> (y, namey, n)).
    { destruct Hxy as (_ & _ & _ & _ & _ & Hne). congruence. }
    destruct (precedes_total _ _ _ Hx Hy Hne) as [Hp | Hp]; [exact Hp|].
    exfalso. destruct (Hprec _ _ Hp) as [_ Hyx].
    apply (first_seen_before_asym x y (map fst links) Hxy).
    now apply Hyx.
  - intros id Hid. destruct (Hall id Hid) as [(v & Hin) | (Hfull & Hle)].
    + left. apply in_map_iff in Hin. destruct Hin as ([[k s] m] & Heq & Hin).
      unfold printed in Heq. simpl in Heq. injection Heq as -> _ ->.
      now exists s.
    + right. split; [exact Hfull|]. intros r Hr.
      apply (Hle (printed r)). now apply in_map.
Qed.

Example top_advisors_tie :
  top_advisors tie_records
  = ([("X", "X. Lima", 3%Z); ("Y", "Yara", 3%Z); ("Z", "Zeca", 1%Z)], Ok tt).
Proof. reflexivity. Qed.

(** A name that is [null] stops the table at its row: the row before
    it is printed and the step raises TypeError. *)
Example top_advisors_unnamed :
  top_advisors unnamed_records = ([("X", "Xavier", 2%Z)], Raise TypeError).
Proof. reflexivity. Qed.

Lemma top_advisors_ranking_witness :
  exists rows : list (string * string * Z),
    top_advisors tie_records = (rows, Ok tt)
    /\ (List.length rows <= 10)%nat
    /\ (forall id name n, In (id, name, n) rows ->
          n = occurrences id tie_links /\ last_name id tie_links = Some (JStr name))
    /\ (forall r1 r2, precedes r1 r2 rows ->
          (snd r2 <= snd r1)%Z
          /\ (snd r1 = snd r2 ->
              first_seen_before (fst (fst r1)) (fst (fst r2)) (map fst tie_links)))
    /\ (forall x y namex namey n,
          In (x, namex, n) rows -> In (y, namey, n) rows ->
          first_seen_before x y (map fst tie_links) ->
          precedes (x, namex, n) (y, namey, n) rows)
    /\ (forall id, In id (map fst tie_links) ->
          (exists name, In (id, name, occurrences id tie_links) rows)
          \/ (List.length rows = 10%nat
              /\ forall r, In r rows -> (occurrences id tie_links <= snd r)%Z)).
Proof.
  apply (top_advisors_ranking tie_records tie_links).
  - reflexivity.
  - intros link Hin. simpl in Hin.
    repeat (destruct Hin as [<-|Hin]; [eexists; reflexivity|]). destruct Hin.
Defined.

(** * Further properties of the pipeline *)

(** ** The record fetcher *)

Lemma raise_for_status_ok (r : response) :
  (status_code r < 400 \/ 600 <= status_code r)%Z -> raise_for_status r = Ok tt.
Proof.
  intros H. unfold raise_for_status.
  destruct (Z.leb_spec 400 (status_code r)); [|reflexivity].
  destruct (Z.ltb_spec (status_code r) 600); [lia | reflexivity].
Qed.

Lemma raise_for_status_error (r : response) :
  (400 <= status_code r < 600)%Z ->
  raise_for_status r = Raise (HTTPError (status_code r)).
Proof.
  intros [H1 H2]. unfold raise_for_status.
  destruct (Z.leb_spec 400 (status_code r)); [|lia].
  destruct (Z.ltb_spec (status_code r) 600); [reflexivity | lia].
Qed.

Lemma first_ids_groups (groups : list (list json)) :
  first_ids (map JList groups) = Ok (flat_map (firstn 1) groups).
Proof.
  induction groups as [|g groups IH]; [reflexivity|].
  simpl. destruct g as [|x g]; simpl; rewrite IH; reflexivity.
Qed.

(** X1: when the search answers with a list of id groups, the ids
    returned are the first id of every non-empty group, in order; empty
    groups give nothing. *)
Theorem ids_by_country_keeps_first_of_each_group
  (r : response) (groups : list (list json)) :
  (status_code r < 400 \/ 600 <= status_code r)%Z ->
  json_body r = Ok (JList (map JList groups)) ->
  get_mathematician_ids_by_country (Ok r)
  = Ok (JList (flat_map (firstn 1) groups)).
Proof.
  intros Hs Hb. unfold get_mathematician_ids_by_country. simpl.
  rewrite (raise_for_status_ok r Hs). simpl. rewrite Hb. simpl.
  destruct groups as [|g groups]; [reflexivity|].
  simpl map. cbn [truthy negb first_of bind is_list py_iter].
  change (JList g :: map JList groups) with (map JList (g :: groups)).
  rewrite first_ids_groups. reflexivity.
Qed.

Lemma ids_by_country_keeps_first_of_each_group_witness :
  get_mathematician_ids_by_country
    (Ok {| status_code := 200;
           json_body := Ok (JList (map JList [[JInt 7; JInt 70]; []; [JInt 9]])) |})
  = Ok (JList (flat_map (firstn 1) [[JInt 7; JInt 70]; []; [JInt 9]])).
Proof.
  apply (ids_by_country_keeps_first_of_each_group
           {| status_code := 200;
              json_body := Ok (JList (map JList [[JInt 7; JInt 70]; []; [JInt 9]])) |}).
  - left. reflexivity.
  - reflexivity.
Defined.

(** X2: the shape of the answer is judged by its first element alone: a
    list whose first element is not a list is returned as it is, groups
    among the later elements included; and an answer that is falsy
    (an empty list, an empty object, [null]) gives the empty list. *)
Theorem ids_by_country_judges_by_first_element
  (r : response) (ids : json) :
  (status_code r < 400 \/ 600 <= status_code r)%Z ->
  json_body r = Ok ids ->
  (forall first rest, ids = JList (first :: rest) -> is_list first = false ->
                      get_mathematician_ids_by_country (Ok r) = Ok ids)
  /\ (truthy ids = false ->
      get_mathematician_ids_by_country (Ok r) = Ok (JList [])).
Proof.
  intros Hs Hb. unfold get_mathematician_ids_by_country. simpl.
  rewrite (raise_for_status_ok r Hs). simpl. rewrite Hb. simpl. split.
  - intros first rest -> Hf. simpl. now rewrite Hf.
  - intros Ht. now rewrite Ht.
Qed.

Lemma ids_by_country_judges_by_first_element_witness :
  (forall first rest,
      JList [JInt 7; JList [JInt 8; JInt 80]] = JList (first :: rest) ->
      is_list first = false ->
      get_mathematician_ids_by_country
        (Ok {| status_code := 200;
               json_body := Ok (JList [JInt 7; JList [JInt 8; JInt 80]]) |})
      = Ok (JList [JInt 7; JList [JInt 8; JInt 80]]))
  /\ (truthy (JList [JInt 7; JList [JInt 8; JInt 80]]) = false ->
      get_mathematician_ids_by_country
        (Ok {| status_code := 200;
               json_body := Ok (JList [JInt 7; JList [JInt 8; JInt 80]]) |})
      = Ok (JList [])).
Proof.
  apply (ids_by_country_judges_by_first_element
           {| status_code := 200;
              json_body := Ok (JList [JInt 7; JList [JInt 8; JInt 80]]) |}).
  - left. reflexivity.
  - reflexivity.
Defined.

Example ids_by_country_unchanged :
  get_mathematician_ids_by_country
    (Ok {| status_code := 200;
           json_body := Ok (JList [JInt 7; JList [JInt 8; JInt 80]]) |})
  = Ok (JList [JInt 7; JList [JInt 8; JInt 80]]).
Proof. reflexivity. Qed.

(** X3: a reply with a client or server error status gives no document,
    whatever its body holds: the three fetchers raise HTTPError with
    that status. *)
Theorem fetchers_refuse_error_status (r : response) :
  (400 <= status_code r < 600)%Z ->
  get_mathematician_details (Ok r) = Raise (HTTPError (status_code r))
  /\ get_mathematician_range (Ok r) = Raise (HTTPError (status_code r))
  /\ get_mathematician_ids_by_country (Ok r) = Raise (HTTPError (status_code r)).
Proof.
  intros Hs.
  unfold get_mathematician_details, get_mathematician_range,
    get_mathematician_ids_by_country. simpl.
  rewrite (raise_for_status_error r Hs). repeat split.
Qed.

Lemma fetchers_refuse_error_status_witness :
  get_mathematician_details
    (Ok {| status_code := 404; json_body := Ok (person "A" []) |})
  = Raise (HTTPError 404)
  /\ get_mathematician_range
       (Ok {| status_code := 404; json_body := Ok (person "A" []) |})
     = Raise (HTTPError 404)
  /\ get_mathematician_ids_by_country
       (Ok {| status_code := 404; json_body := Ok (person "A" []) |})
     = Raise (HTTPError 404).
Proof.
  apply (fetchers_refuse_error_status
           {| status_code := 404; json_body := Ok (person "A" []) |}).
  split; [apply Z.leb_le | apply Z.ltb_lt]; reflexivity.
Defined.

(** ** The extractors *)

(** X4: a record without the academic part, or whose academic part has
    no student data, or whose student data has neither degrees nor
    descendants, yields no advisor, no advisee and no school: a missing
    key is no error. *)
Theorem extractors_tolerate_missing_keys (kvs : list (string * json)) :
  (lookup "MGP_academic" kvs = None
   \/ exists academic,
       lookup "MGP_academic" kvs = Some (JObj academic)
       /\ (lookup "student_data" academic = None
           \/ exists student_data,
               lookup "student_data" academic = Some (JObj student_data)
               /\ lookup "degrees" student_data = None
               /\ lookup "descendants" student_data = None)) ->
  extract_advisor_info (JObj kvs) = Ok []
  /\ extract_advisees_info (JObj kvs) = Ok []
  /\ extract_school_info (JObj kvs) = Ok [].
Proof.
  unfold extract_advisor_info, extract_advisees_info, extract_school_info.
  intros [Hm | (academic & Hm & [Hs | (student_data & Hs & Hd & Hc)])];
    simpl; rewrite Hm; simpl; try (repeat split; reflexivity);
    rewrite Hs; simpl; try (repeat split; reflexivity).
  rewrite Hd, Hc. repeat split.
Qed.

Lemma extractors_tolerate_missing_keys_witness :
  extract_advisor_info (JObj [("MGP_academic", JObj [("ID", JStr "7")])]) = Ok []
  /\ extract_advisees_info (JObj [("MGP_academic", JObj [("ID", JStr "7")])]) = Ok []
  /\ extract_school_info (JObj [("MGP_academic", JObj [("ID", JStr "7")])]) = Ok [].
Proof.
  apply (extractors_tolerate_missing_keys [("MGP_academic", JObj [("ID", JStr "7")])]).
  right. exists [("ID", JStr "7")]. split; [reflexivity|]. left. reflexivity.
Defined.

(** X5: the defaults cover a missing key only.  When the academic part
    or its student data is present but is not an object ([null]
    included), the three extractors raise AttributeError. *)
Theorem extractors_raise_on_present_non_object
  (kvs : list (string * json)) (v : json) :
  is_object v = false ->
  (lookup "MGP_academic" kvs = Some v
   \/ exists academic,
       lookup "MGP_academic" kvs = Some (JObj academic)
       /\ lookup "student_data" academic = Some v) ->
  extract_advisor_info (JObj kvs) = Raise AttributeError
  /\ extract_advisees_info (JObj kvs) = Raise AttributeError
  /\ extract_school_info (JObj kvs) = Raise AttributeError.
Proof.
  unfold extract_advisor_info, extract_advisees_info, extract_school_info.
  intros Hv [Hm | (academic & Hm & Hs)]; simpl; rewrite Hm; simpl.
  - destruct v; try discriminate; repeat split.
  - rewrite Hs. destruct v; try discriminate; repeat split.
Qed.

Lemma extractors_raise_on_present_non_object_witness :
  extract_advisor_info
    (JObj [("MGP_academic", JObj [("ID", JStr "7"); ("student_data", JNull)])])
  = Raise AttributeError
  /\ extract_advisees_info
       (JObj [("MGP_academic", JObj [("ID", JStr "7"); ("student_data", JNull)])])
     = Raise AttributeError
  /\ extract_school_info
       (JObj [("MGP_academic", JObj [("ID", JStr "7"); ("student_data", JNull)])])
     = Raise AttributeError.
Proof.
  apply (extractors_raise_on_present_non_object
           [("MGP_academic", JObj [("ID", JStr "7"); ("student_data", JNull)])]
           JNull).
  - reflexivity.
  - right. exists [("ID", JStr "7"); ("student_data", JNull)]. split; reflexivity.
Defined.

(** ** What the graph holds *)

Lemma add_edge_edges (G G' : DiGraph) (ju jv : json) (x y : node) :
  add_edge G ju jv = Ok G' -> has_edge G' x y = true ->
  has_edge G x y = true \/ (as_node ju = Ok x /\ as_node jv = Ok y).
Proof.
  unfold add_edge. destruct (as_node ju) as [u|]; [|discriminate].
  destruct (as_node jv) as [v|]; [|discriminate]. simpl.
  intros H Hxy. injection H as <-.
  apply add_adj_edges in Hxy. destruct Hxy as [Hxy | [-> ->]]; [|now right].
  left. now apply add_node_edges, add_node_edges in Hxy.
Qed.

Lemma add_edges_edges (advisors : list AdvisorLink) (student_id : json)
  (x y : node) :
  forall G G',
    add_edges G advisors student_id = Ok G' -> has_edge G' x y = true ->
    has_edge G x y = true
    \/ exists advisor_id name,
         In (advisor_id, name) advisors
         /\ x = NStr advisor_id /\ as_node student_id = Ok y.
Proof.
  induction advisors as [|[a n] rest IH]; intros G G'; simpl.
  - intros H. injection H as <-. now left.
  - destruct (add_edge G (JStr a) student_id) as [G1|] eqn:H1; [|discriminate].
    simpl. intros H2 Hxy.
    destruct (IH _ _ H2 Hxy) as [Hold | (a' & n' & Hin & Hx & Hy)].
    + destruct (add_edge_edges _ _ _ _ _ _ H1 Hold) as [H0 | [Hu Hv]]; [now left|].
      right. exists a, n. split; [now left|]. simpl in Hu.
      injection Hu as <-. now split.
    + right. exists a', n'. split; [now right | now split].
Qed.

(** X6: a graph that is built holds nothing but the links: every edge
    goes from the advisor id of an AdvisorLink to the subject id of the
    record the link was extracted from, and every node is an end of such
    an edge.  A record adds no node of its own. *)
Theorem build_graph_holds_only_links
  (mathematicians_data : list json) (G : DiGraph) :
  build_graph mathematicians_data [] = Ok G ->
  (forall u v, has_edge G u v = true ->
     exists data academic student_id advisors advisor_id name,
       In data mathematicians_data
       /\ py_getitem data "MGP_academic" = Ok academic
       /\ py_get academic "ID" JNull = Ok student_id
       /\ extract_advisor_info data = Ok advisors
       /\ In (advisor_id, name) advisors
       /\ u = NStr advisor_id /\ as_node student_id = Ok v)
  /\ (forall n, has_node G n = true ->
        exists m, has_edge G n m = true \/ has_edge G m n = true).
Proof.
  intros Hb. split.
  - assert (Hgen : forall records G0 G1 u v,
               build_graph records G0 = Ok G1 -> has_edge G1 u v = true ->
               has_edge G0 u v = true
               \/ exists data academic student_id advisors advisor_id name,
                    In data records
                    /\ py_getitem data "MGP_academic" = Ok academic
                    /\ py_get academic "ID" JNull = Ok student_id
                    /\ extract_advisor_info data = Ok advisors
                    /\ In (advisor_id, name) advisors
                    /\ u = NStr advisor_id /\ as_node student_id = Ok v).
    { clear. induction records as [|d rest IH]; intros G0 G1 u v; simpl.
      - intros H. injection H as <-. now left.
      - destruct (py_in "MGP_academic" d) as [[|]|]; simpl; try discriminate.
        + destruct (py_getitem d "MGP_academic") as [ac|] eqn:Hac; simpl; [|discriminate].
          destruct (py_get ac "ID" JNull) as [sid|] eqn:Hid; simpl; [|discriminate].
          destruct (extract_advisor_info d) as [adv|] eqn:Hadv; simpl; [|discriminate].
          destruct (add_edges G0 adv sid) as [G'|] eqn:Ha; simpl; [|discriminate].
          intros Hb Huv.
          destruct (IH _ _ _ _ Hb Huv)
            as [Hold | (data & ac' & sid' & adv' & a & n & Hin & H)].
          * destruct (add_edges_edges _ _ _ _ _ _ Ha Hold)
              as [H0 | (a & n & Hin & Hu & Hv)]; [now left|].
            right. exists d, ac, sid, adv, a, n. split; [now left|].
            repeat (split; [assumption|]). assumption.
          * right. exists data, ac', sid', adv', a, n. split; [now right | exact H].
        + intros Hb Huv.
          destruct (IH _ _ _ _ Hb Huv)
            as [Hold | (data & ac' & sid' & adv' & a & n & Hin & H)]; [now left|].
          right. exists data, ac', sid', adv', a, n. split; [now right | exact H]. }
    intros u v Huv. destruct (Hgen _ _ _ _ _ Hb Huv) as [H0 | H]; [discriminate | exact H].
  - destruct (linked_build_graph _ _ _ linked_nil Hb) as (_ & _ & Hinc). exact Hinc.
Qed.

Lemma build_graph_holds_only_links_witness :
  (forall u v,
      has_edge scenario_graph u v = true ->
      exists data academic student_id advisors advisor_id name,
        In data scenario
        /\ py_getitem data "MGP_academic" = Ok academic
        /\ py_get academic "ID" JNull = Ok student_id
        /\ extract_advisor_info data = Ok advisors
        /\ In (advisor_id, name) advisors
        /\ u = NStr advisor_id /\ as_node student_id = Ok v)
  /\ (forall n,
        has_node scenario_graph n = true ->
        exists m,
          has_edge scenario_graph n m = true \/ has_edge scenario_graph m n = true).
Proof.
  apply (build_graph_holds_only_links scenario scenario_graph). reflexivity.
Defined.

Lemma build_graph_never_isolates_witness :
  isolates (to_undirected scenario_graph) = [].
Proof.
  apply (build_graph_never_isolates scenario scenario_graph). reflexivity.
Defined.

Lemma to_undirected_keys (G : DiGraph) :
  map fst (to_undirected G) = map fst G.
Proof.
  rewrite to_undirected_edges.
  assert (Hf : forall es H,
             map fst (fold_left (fun (H : Graph) (e : node * node) =>
                                   add_undirected H (fst e) (snd e)) es H)
             = map fst H).
  { induction es as [|e es IH]; intros H; [reflexivity|]. simpl.
    rewrite IH. unfold add_undirected. now rewrite !add_adj_keys. }
  rewrite Hf, map_map. reflexivity.
Qed.

Lemma all_links_cons (d : json) (rest : list json) (links : list AdvisorLink) :
  all_links (d :: rest) = Ok links ->
  exists advisors ls,
    extract_advisor_info d = Ok advisors /\ all_links rest = Ok ls
    /\ links = advisors ++ ls.
Proof.
  unfold all_links. simpl.
  destruct (extract_advisor_info d) as [adv|]; simpl; [|discriminate].
  destruct (extend_each extract_advisor_info rest) as [ls|]; simpl; [|discriminate].
  intros H. injection H as <-. now exists adv, ls.
Qed.

Lemma extract_without_academic (d : json) :
  py_in "MGP_academic" d = Ok false -> extract_advisor_info d = Ok [].
Proof. intros H. unfold extract_advisor_info. now rewrite H. Qed.

Lemma build_graph_extends (mathematicians_data : list json) :
  forall G1 G2, build_graph mathematicians_data G1 = Ok G2 -> extends G1 G2.
Proof.
  induction mathematicians_data as [|d rest IH]; intros G1 G2; simpl.
  - intros H. injection H as <-. apply extends_refl.
  - destruct (py_in "MGP_academic" d) as [[|]|]; simpl; try discriminate;
      [|apply IH].
    destruct (py_getitem d "MGP_academic") as [ac|]; simpl; [|discriminate].
    destruct (py_get ac "ID" JNull) as [sid|]; simpl; [|discriminate].
    destruct (extract_advisor_info d) as [adv|]; simpl; [|discriminate].
    destruct (add_edges G1 adv sid) as [G'|] eqn:Ha; simpl; [|discriminate].
    intros H. apply extends_trans with G'; [|now apply IH].
    now destruct (add_edges_spec _ _ _ _ Ha).
Qed.

Lemma build_graph_size (mathematicians_data : list json) :
  forall (links : list AdvisorLink) (G0 G : DiGraph),
    build_graph mathematicians_data G0 = Ok G ->
    all_links mathematicians_data = Ok links ->
    (links = [] -> G = G0)
    /\ (links <> [] -> G <> []).
Proof.
  induction mathematicians_data as [|d rest IH]; intros links G0 G; simpl.
  - intros H Hl. injection H as <-. unfold all_links in Hl. simpl in Hl.
    injection Hl as <-. split; [reflexivity | intros H; now destruct H].
  - intros Hb Hl. destruct (all_links_cons _ _ _ Hl) as (adv & ls & Hadv & Hls & ->).
    destruct (py_in "MGP_academic" d) as [[|]|] eqn:Hin; simpl in Hb; try discriminate.
    + destruct (py_getitem d "MGP_academic") as [ac|]; simpl in Hb; [|discriminate].
      destruct (py_get ac "ID" JNull) as [sid|]; simpl in Hb; [|discriminate].
      rewrite Hadv in Hb. simpl in Hb.
      destruct (add_edges G0 adv sid) as [G'|] eqn:Ha; simpl in Hb; [|discriminate].
      destruct (IH ls G' G Hb Hls) as [Hnone Hsome]. split.
      * intros Happ. apply app_eq_nil in Happ. destruct Happ as [-> ->].
        simpl in Ha. injection Ha as <-. now apply Hnone.
      * intros Hne. destruct adv as [|[a n] adv].
        -- simpl in Ha, Hne. injection Ha as <-. now apply Hsome.
        -- destruct (add_edges_spec _ _ _ _ Ha) as (_ & Hlinks).
           destruct (Hlinks a n (or_introl eq_refl)) as (s & _ & Hn & _).
           destruct (build_graph_extends _ _ _ Hb) as [Nx _]. apply Nx in Hn.
           intros ->. discriminate.
    + rewrite (extract_without_academic d Hin) in Hadv. injection Hadv as <-.
      simpl. now apply IH.
Qed.

Lemma giant_component_answers (H : Graph) :
  H <> [] -> exists b, giant_component H = Some b.
Proof.
  intros Hne. unfold giant_component.
  assert (Hpos : (0 < len H)%Z) by (destruct H; [contradiction | unfold len; simpl; lia]).
  destruct (Z.ltb_spec 0 (len H)); [|lia].
  destruct (sorted_desc len (connected_components H)) as [|c cs] eqn:Hs;
    [|now eexists].
  exfalso. apply (connected_components_exist H Hpos).
  apply Permutation_nil. rewrite <- Hs. apply sorted_desc_perm.
Qed.

(** X7: the graph is empty exactly when no record has an advisor link.
    Without links step 6 tests nothing (the graph is reported empty);
    with at least one link the giant-component test gives an answer. *)
Theorem graph_is_empty_iff_no_links
  (mathematicians_data : list json) (links : list AdvisorLink) (G : DiGraph) :
  build_graph mathematicians_data [] = Ok G ->
  all_links mathematicians_data = Ok links ->
  (links = [] <-> G = [])
  /\ (links = [] <-> giant_component (to_undirected G) = None).
Proof.
  intros Hb Hl. destruct (build_graph_size _ _ _ _ Hb Hl) as [Hnone Hsome].
  assert (Hiff : links = [] <-> G = []).
  { split; [exact Hnone|]. intros HG. destruct links as [|l links]; [reflexivity|].
    exfalso. apply Hsome; [discriminate | exact HG]. }
  split; [exact Hiff|]. split.
  - intros Hn. rewrite (Hnone Hn). reflexivity.
  - intros Hg. destruct links as [|l links]; [reflexivity|]. exfalso.
    assert (HG : G <> []) by (apply Hsome; discriminate).
    assert (HH : to_undirected G <> []).
    { intros HH. apply HG. pose proof (to_undirected_keys G) as Hk.
      rewrite HH in Hk. destruct G; [reflexivity | discriminate]. }
    destruct (giant_component_answers _ HH) as (b & Hb'). congruence.
Qed.

Lemma graph_is_empty_iff_no_links_witness :
  (scenario_links = [] <-> scenario_graph = [])
  /\ (scenario_links = [] <-> giant_component (to_undirected scenario_graph) = None).
Proof.
  apply (graph_is_empty_iff_no_links scenario scenario_links scenario_graph);
    reflexivity.
Defined.

(** ** The export *)

Lemma export_record_advisees (data : json) (r : option (json * json)) :
  record_advisees data = Ok r ->
  match r with
  | None => export_record data = Ok None
  | Some (student_id, advisees) =>
      forall n, py_len advisees = Ok n ->
        exists row, export_record data = Ok (Some row)
                    /\ ID row = student_id /\ Orientandos_Diretos row = n
  end.
Proof.
  unfold record_advisees, export_record.
  destruct (py_in "MGP_academic" data) as [[|]|]; simpl; try discriminate.
  - destruct (py_getitem data "MGP_academic") as [ac|]; simpl; [|discriminate].
    destruct ac as [| | | |l|akvs]; simpl; try discriminate.
    destruct (py_get _ "descendants" (JObj [])) as [ds|]; simpl; [|discriminate].
    destruct ds as [| | | |l|dkvs]; simpl; try discriminate.
    intros H. injection H as <-. intros n Hn. rewrite Hn. simpl.
    eexists. split; [reflexivity|]. split; reflexivity.
  - intros H. injection H as <-. reflexivity.
Qed.

Lemma py_len_collection (v : json) :
  is_collection v = true -> exists n, py_len v = Ok n.
Proof. destruct v; try discriminate; intros _; simpl; now eexists. Qed.

Lemma export_rows_entries (mathematicians_data : list json) :
  forall (entries : list (json * json)) (df_data : list export_row),
    records_advisees mathematicians_data = Ok entries ->
    Forall (fun e => is_collection (snd e) = true) entries ->
    exists rows,
      export_rows mathematicians_data df_data = Ok (df_data ++ rows)
      /\ Forall2 (fun row e => ID row = fst e
                               /\ py_len (snd e) = Ok (Orientandos_Diretos row))
           rows entries.
Proof.
  unfold records_advisees.
  induction mathematicians_data as [|d rest IH]; intros entries df_data; simpl.
  - intros H _. injection H as <-. exists []. split; [now rewrite app_nil_r | constructor].
  - destruct (record_advisees d) as [r|] eqn:Hr; simpl; [|discriminate].
    destruct (extend_each _ rest) as [es|] eqn:Hes; simpl; [|discriminate].
    intros H Hall. injection H as <-.
    apply Forall_app in Hall. destruct Hall as [Hr' Hes'].
    pose proof (export_record_advisees d r Hr) as Hrow.
    destruct r as [[sid adv]|]; simpl in *.
    + inversion Hr' as [|? ? Hc _]; subst. simpl in Hc.
      destruct (py_len_collection adv Hc) as (n & Hn).
      destruct (Hrow n Hn) as (row & Hrec & Hid & Hcount).
      rewrite Hrec. simpl.
      destruct (IH es (df_data ++ [row]) eq_refl Hes') as (rows & Hrows & Hf).
      exists (row :: rows). split; [now rewrite Hrows, <- app_assoc|].
      constructor; [|exact Hf]. simpl. split; [exact Hid | now rewrite Hcount].
    + rewrite Hrow. simpl. rewrite app_nil_r. now apply IH.
Qed.

(** X8: when the advisees field of every record is a collection, the
    export succeeds with one row per record that has an academic part,
    in input order; the row carries the subject id and, as the number
    of direct advisees, the number of entries of the collection.
    Records without an academic part give no row. *)
Theorem export_has_one_row_per_academic_record
  (mathematicians_data : list json) (entries : list (json * json)) :
  records_advisees mathematicians_data = Ok entries ->
  Forall (fun e => is_collection (snd e) = true) entries ->
  exists rows,
    export_rows mathematicians_data [] = Ok rows
    /\ Forall2 (fun row e => ID row = fst e
                             /\ py_len (snd e) = Ok (Orientandos_Diretos row))
         rows entries.
Proof.
  intros He Hc. destruct (export_rows_entries _ _ [] He Hc) as (rows & Hr & Hf).
  now exists rows.
Qed.

Lemma export_has_one_row_per_academic_record_witness :
  exists rows,
    export_rows sample_graduates [] = Ok rows
    /\ Forall2 (fun row e => ID row = fst e
                             /\ py_len (snd e) = Ok (Orientandos_Diretos row))
         rows sample_advisees.
Proof.
  apply (export_has_one_row_per_academic_record sample_graduates sample_advisees).
  - reflexivity.
  - repeat constructor.
Defined.

(** X9: the export and the analysis disagree on the placeholder.  A
    record whose advisees field is the list with the empty string alone
    is exported with one direct advisee, and is listed among the records
    without advisees. *)
Theorem placeholder_is_exported_as_one_advisee (data student_id : json) :
  record_advisees data = Ok (Some (student_id, JList [JStr ""])) ->
  (exists row, export_rows [data] [] = Ok [row]
               /\ ID row = student_id /\ Orientandos_Diretos row = 1%Z)
  /\ no_advisees [data] [] = Ok [student_id].
Proof.
  intros Hr. split.
  - pose proof (export_record_advisees data _ Hr) as Hrow. simpl in Hrow.
    destruct (Hrow 1%Z eq_refl) as (row & Hrec & Hid & Hn).
    exists row. simpl. rewrite Hrec. simpl. now repeat split.
  - simpl. rewrite Hr. reflexivity.
Qed.

Lemma placeholder_is_exported_as_one_advisee_witness :
  (exists row,
      export_rows [graduate "2" (JList [JStr ""]) (JInt 3)] [] = Ok [row]
      /\ ID row = JStr "2" /\ Orientandos_Diretos row = 1%Z)
  /\ no_advisees [graduate "2" (JList [JStr ""]) (JInt 3)] [] = Ok [JStr "2"].
Proof.
  apply (placeholder_is_exported_as_one_advisee
           (graduate "2" (JList [JStr ""]) (JInt 3)) (JStr "2")).
  reflexivity.
Defined.

(** ** The universities table *)

Lemma count_school_name (c : Counter) (s : string) :
  count_school c (JStr s) = Ok (if brazilian s then increment s c else c).
Proof.
  unfold count_school, brazilian, contains. simpl.
  destruct (index 0 "Brazil" s); simpl; [reflexivity|].
  destruct (index 0 "Brasil" s); reflexivity.
Qed.

Lemma count_each_names (names : list string) :
  forall c, count_each (map JStr names) c
            = Ok (tally (as_links (filter brazilian names)) c).
Proof.
  induction names as [|s names IH]; intros c; [reflexivity|].
  simpl. rewrite count_school_name. simpl. rewrite IH.
  destruct (brazilian s); reflexivity.
Qed.

Lemma count_schools_names (mathematicians_data : list json) :
  forall (names : list string) (c : Counter),
    all_schools mathematicians_data = Ok (map JStr names) ->
    count_schools mathematicians_data c
    = Ok (tally (as_links (filter brazilian names)) c).
Proof.
  unfold all_schools.
  induction mathematicians_data as [|d rest IH]; intros names c; simpl.
  - intros H. injection H as H. destruct names; [reflexivity | discriminate].
  - destruct (extract_school_info d) as [ys|]; simpl; [|discriminate].
    destruct (extend_each extract_school_info rest) as [zs|] eqn:Hz; simpl;
      [|discriminate].
    intros H. injection H as H. symmetry in H. apply map_eq_app in H.
    destruct H as (n1 & n2 & -> & <- & <-).
    rewrite count_each_names. simpl. rewrite (IH n2) by reflexivity.
    unfold as_links. now rewrite filter_app, map_app, tally_app.
Qed.

Lemma occurrences_as_links (s : string) (names : list string) :
  brazilian s = true ->
  occurrences s (as_links (filter brazilian names)) = times s names.
Proof.
  intros Hs. unfold occurrences, times, as_links, len. f_equal.
  induction names as [|x names IH]; [reflexivity|]. simpl.
  destruct (String.eqb_spec s x) as [<-|Hne].
  - rewrite Hs. simpl. rewrite String.eqb_refl. simpl. now rewrite IH.
  - destruct (brazilian x); simpl; [|exact IH].
    destruct (String.eqb_spec x s); [congruence | exact IH].
Qed.

Lemma keys_as_links (names : list string) : map fst (as_links names) = names.
Proof. unfold as_links. rewrite map_map. simpl. apply map_id. Qed.

(** X10: the universities table has at most ten rows; each row is a
    school name that contains "Brazil" or "Brasil", with the number of
    times the name occurs among the schools of all degrees; the rows
    are in descending order of count, names with equal counts in the
    order of their first occurrence; a name left out has no higher count
    than any row. *)
Theorem top_schools_ranking
  (mathematicians_data : list json) (names : list string) :
  all_schools mathematicians_data = Ok (map JStr names) ->
  exists rows : list (string * Z),
    top_schools mathematicians_data = Ok rows
    /\ (List.length rows <= 10)%nat
    /\ (forall s n, In (s, n) rows ->
          brazilian s = true /\ In s names /\ n = times s names)
    /\ (forall r1 r2, precedes r1 r2 rows ->
          (snd r2 <= snd r1)%Z
          /\ (snd r1 = snd r2 ->
              first_seen_before (fst r1) (fst r2) (filter brazilian names)))
    /\ (forall s, In s names -> brazilian s = true ->
          In (s, times s names) rows
          \/ (List.length rows = 10%nat
              /\ forall r, In r rows -> (times s names <= snd r)%Z)).
Proof.
  intros Hs. unfold top_schools. rewrite (count_schools_names _ _ _ Hs). simpl.
  set (links := as_links (filter brazilian names)).
  set (ranking := sorted_desc snd (tally links [])).
  assert (Hsorted : descending snd ranking) by apply sorted_desc_descending.
  assert (Hkeys : map fst links = filter brazilian names) by apply keys_as_links.
  exists (most_common 10 (tally links [])).
  split; [reflexivity|]. split; [apply firstn_le_length|].
  split; [|split].
  - intros s n Hin. apply In_firstn in Hin.
    apply (proj1 (sorted_desc_In snd _ _)) in Hin.
    destruct (counter_entry links s n Hin) as [Hn Hk].
    rewrite Hkeys in Hk. apply filter_In in Hk. destruct Hk as [Hk Hb].
    split; [exact Hb|]. split; [exact Hk|].
    rewrite Hn. now apply occurrences_as_links.
  - intros r1 r2 Hp. apply precedes_firstn in Hp. fold ranking in Hp. split.
    + now apply (descending_precedes snd ranking).
    + intros Heq. rewrite <- Hkeys. apply keys_tally_order. apply precedes_map.
      now apply (sorted_desc_stable snd).
  - intros s Hin Hb.
    assert (Hk : In s (map fst links)) by (rewrite Hkeys; apply filter_In; now split).
    pose proof (counter_has links s Hk) as Hc.
    assert (Ho : occurrences s links = times s names)
      by now apply occurrences_as_links.
    rewrite Ho in Hc.
    apply (proj2 (sorted_desc_In snd _ _)) in Hc. fold ranking in Hc.
    rewrite <- (firstn_skipn 10 ranking) in Hc. apply in_app_or in Hc.
    destruct Hc as [Hc | Hc]; [now left|]. right. split.
    + apply firstn_length_le.
      destruct (Nat.le_gt_cases 10 (List.length ranking)) as [H|H]; [exact H|].
      rewrite skipn_all2 in Hc by lia. destruct Hc.
    + intros r Hr.
      apply (descending_precedes snd ranking r (s, times s names) Hsorted).
      rewrite <- (firstn_skipn 10 ranking). now apply precedes_split.
Qed.

Lemma top_schools_ranking_witness :
  exists rows : list (string * Z),
    top_schools school_records = Ok rows
    /\ (List.length rows <= 10)%nat
    /\ (forall s n, In (s, n) rows ->
          brazilian s = true /\ In s school_names /\ n = times s school_names)
    /\ (forall r1 r2, precedes r1 r2 rows ->
          (snd r2 <= snd r1)%Z
          /\ (snd r1 = snd r2 ->
              first_seen_before (fst r1) (fst r2) (filter brazilian school_names)))
    /\ (forall s, In s school_names -> brazilian s = true ->
          In (s, times s school_names) rows
          \/ (List.length rows = 10%nat
              /\ forall r, In r rows -> (times s school_names <= snd r)%Z)).
Proof.
  apply (top_schools_ranking school_records school_names). reflexivity.
Defined.

Example top_schools_sample :
  top_schools school_records
  = Ok [("Universidade de Sao Paulo, Brazil", 2%Z); ("IMPA, Brasil", 1%Z)].
Proof. reflexivity. Qed.

(** ** The two acquisition modes *)

Section FetchModes.

Variable get : json -> result json.

Lemma answers_truthy (ids : list json) :
  answers get truthy ids = filter truthy (answers get (fun _ => true) ids).
Proof.
  unfold answers. induction ids as [|x l IH]; [reflexivity|]. simpl.
  rewrite filter_app, <- IH. f_equal.
  destruct (get x) as [r|]; [|reflexivity]. simpl. now destruct (truthy r).
Qed.

(** X11: the two modes differ by the falsy documents alone.  When every
    fetch failure is an Exception, the records of the parallel mode
    are, up to the order of completion, the records of the sequential
    mode without the falsy ones, and both modes print the same reports;
    when the fetches complete in the order of the list, the order of
    the records is the same too. *)
Theorem parallel_is_sequential_without_falsy (ids completed : list json) :
  (forall mgp_id e, In mgp_id ids -> get mgp_id = Raise e ->
                    is_Exception e = true) ->
  Permutation ids completed ->
  exists (out out' : list event) (parallel sequential : list json),
    collect_completed get completed [] = (out, Ok parallel)
    /\ fetch_sequential get ids [] = (out', Ok sequential)
    /\ Permutation parallel (filter truthy sequential)
    /\ Permutation out out'
    /\ (completed = ids -> parallel = filter truthy sequential).
Proof.
  intros Hexc Hp.
  exists (reports get completed), (reports get ids),
    (answers get truthy completed), (answers get (fun _ => true) ids).
  split; [|split; [|split; [|split]]].
  - apply collect_completed_spec. intros i e Hi. apply Hexc.
    apply Permutation_in with (l := completed); [now apply Permutation_sym | exact Hi].
  - now apply fetch_sequential_spec.
  - rewrite <- answers_truthy. unfold answers.
    apply Permutation_flat_map, Permutation_sym, Hp.
  - unfold reports. apply Permutation_flat_map, Permutation_sym, Hp.
  - intros ->. apply answers_truthy.
Qed.

Lemma fetch_sequential_app (l1 l2 acc : list json) :
  fetch_sequential get (l1 ++ l2) acc
  = io_bind (fetch_sequential get l1 acc) (fetch_sequential get l2).
Proof.
  revert acc. induction l1 as [|x l1 IH]; intros acc.
  - symmetry. apply io_bind_silent.
  - simpl. destruct (io_try _ is_Exception _) as [out [acc'|e]]; simpl.
    + rewrite IH.
      destruct (fetch_sequential get l1 acc') as [out1 [acc1|e1]]; simpl.
      * destruct (fetch_sequential get l2 acc1) as [out2 r2].
        now rewrite app_assoc.
      * reflexivity.
    + reflexivity.
Qed.

(** X12: an error of the fetch of an id that is not an Exception (a
    KeyboardInterrupt) is caught by neither mode, and the records
    fetched before it are not returned.  The sequential loop stops at
    that id: the ids after it are not fetched and only the failures
    before it were reported.  The pool has every id submitted before
    the first result is read and waits for every worker: the ids after
    it are fetched as well and their failures reported, and then the
    error is raised. *)
Theorem non_exception_aborts_batch
  (before after : list json) (mgp_id : json) (e : exn) :
  (forall i e', In i (before ++ after) -> get i = Raise e' ->
                is_Exception e' = true) ->
  get mgp_id = Raise e ->
  is_Exception e = false ->
  fetch_sequential get (before ++ mgp_id :: after) []
  = (reports get before, Raise e)
  /\ collect_completed get (before ++ mgp_id :: after) []
     = (reports get before ++ reports get after, Raise e).
Proof.
  intros Hexc Hg He.
  assert (Hb : forall i e', In i before -> get i = Raise e' ->
                            is_Exception e' = true)
    by (intros i e' Hi; apply Hexc, in_or_app; now left).
  assert (Ha : forall i e', In i after -> get i = Raise e' ->
                            is_Exception e' = true)
    by (intros i e' Hi; apply Hexc, in_or_app; now right).
  split.
  - rewrite fetch_sequential_app, (fetch_sequential_spec get before [] Hb).
    simpl. unfold lift, io_try. rewrite Hg. simpl. rewrite He.
    unfold io_bind. rewrite app_nil_r. reflexivity.
  - unfold collect_completed.
    rewrite workers_output_app, collect_results_app.
    rewrite (workers_output_reports get before Hb).
    rewrite (collect_results_answers get before [] Hb).
    change (mgp_id :: after) with ([mgp_id] ++ after).
    rewrite workers_output_app, (workers_output_reports get after Ha).
    simpl. unfold workers_output, fetch_mathematician_parallel, lift, io_try.
    simpl. rewrite Hg, He. reflexivity.
Qed.

End FetchModes.

Lemma parallel_is_sequential_without_falsy_witness :
  exists (out out' : list event) (parallel sequential : list json),
    collect_completed sample_service [JInt 5; JInt 2; JInt 1] [] = (out, Ok parallel)
    /\ fetch_sequential sample_service [JInt 1; JInt 2; JInt 5] []
       = (out', Ok sequential)
    /\ Permutation parallel (filter truthy sequential)
    /\ Permutation out out'
    /\ ([JInt 5; JInt 2; JInt 1] = [JInt 1; JInt 2; JInt 5] ->
        parallel = filter truthy sequential).
Proof.
  apply (parallel_is_sequential_without_falsy sample_service
           [JInt 1; JInt 2; JInt 5] [JInt 5; JInt 2; JInt 1]).
  - intros mgp_id e [<-|[<-|[<-|[]]]]; simpl; intros H; inversion H; reflexivity.
  - apply perm_trans with [JInt 1; JInt 5; JInt 2].
    + apply perm_skip, perm_swap.
    + apply perm_trans with [JInt 5; JInt 1; JInt 2];
        [apply perm_swap | apply perm_skip, perm_swap].
Defined.

Lemma non_exception_aborts_batch_witness :
  fetch_sequential interrupted_service
    ([JInt 1; JInt 7] ++ JInt 2 :: [JInt 3; JInt 8]) []
  = (reports interrupted_service [JInt 1; JInt 7], Raise KeyboardInterrupt)
  /\ collect_completed interrupted_service
       ([JInt 1; JInt 7] ++ JInt 2 :: [JInt 3; JInt 8]) []
     = (reports interrupted_service [JInt 1; JInt 7]
        ++ reports interrupted_service [JInt 3; JInt 8],
        Raise KeyboardInterrupt).
Proof.
  apply (non_exception_aborts_batch interrupted_service
           [JInt 1; JInt 7] [JInt 3; JInt 8] (JInt 2) KeyboardInterrupt).
  - intros i e' [<-|[<-|[<-|[<-|[]]]]]; simpl; intros H; inversion H; reflexivity.
  - reflexivity.
  - reflexivity.
Defined.

(** ** The text of a snapshot *)

Lemma intstr_nonempty (z : Z) : intstr z <> "".
Proof.
  unfold intstr. destruct (Z.to_int z) as [d|d]; simpl; [|discriminate].
  destruct d; simpl; discriminate.
Qed.

Lemma append_nonempty (s t : string) : s <> "" -> s ^^ t <> "".
Proof. destruct s; [congruence | discriminate]. Qed.

Lemma atom_nonempty (v : json) (a : string) : atom v = Some a -> a <> "".
Proof.
  destruct v as [|[|]|z|s|l|kvs]; simpl; intros H; try discriminate;
    injection H as <-; try discriminate.
  apply intstr_nonempty.
Qed.

Lemma iterencode_first_chunk (level : nat) (o : json) :
  exists c cs, iterencode level o = c :: cs /\ c <> "".
Proof.
  destruct o as [|b|z|s|l|kvs].
  - exists "null", []. split; [reflexivity | discriminate].
  - destruct b; [exists "true", [] | exists "false", []];
      (split; [reflexivity | discriminate]).
  - exists (intstr z), []. split; [reflexivity | apply intstr_nonempty].
  - exists (encoder s), []. split; [reflexivity | discriminate].
  - destruct l as [|x l]; [exists "[]", []; split; [reflexivity | discriminate]|].
    simpl. destruct (atom x) as [a|]; simpl; eexists; eexists;
      (split; [reflexivity | discriminate]).
  - destruct kvs as [|[k v] kvs]; [exists "{}", []; split; [reflexivity | discriminate]|].
    simpl. eexists; eexists. split; [reflexivity | discriminate].
Qed.

Lemma dumps_nonempty (data : json) : dumps data <> "".
Proof.
  unfold dumps. destruct (iterencode_first_chunk 0 data) as (c & cs & -> & Hc).
  rewrite concat_cons. now apply append_nonempty.
Qed.

Lemma run_save_cache (data : json) (d : disk) :
  run (save_cache data) d = Some (dumps data).
Proof.
  unfold save_cache, dumps.
  change (run (OpenW :: map Write (iterencode 0 data) ++ [Close]) d)
    with (run (map Write (iterencode 0 data) ++ [Close]) (Some "")).
  rewrite run_app, run_writes. reflexivity.
Qed.

(** X13: whatever the snapshot and whatever the file held, right after
    [open] the cache file is empty, and the text of a snapshot is never
    empty: a save has always a moment at which the file holds neither
    its old text in full nor the new one. *)
Theorem save_cache_always_passes_through_empty_file (data : json) (d : disk) :
  save_cache_interrupted 1 data d = Some ""
  /\ dumps data <> ""
  /\ save_cache_interrupted 1 data d <> run (save_cache data) d.
Proof.
  split; [reflexivity|]. split; [apply dumps_nonempty|].
  rewrite run_save_cache. intros H. injection H as H. symmetry in H.
  now apply dumps_nonempty in H.
Qed.

(** ** The two tables of step 3 *)

Lemma total_increment (k : string) (c : Counter) :
  total (increment k c) = (total c + 1)%Z.
Proof.
  unfold total. induction c as [|[k' n] c IH]; simpl; [reflexivity|].
  destruct (k =? k'); simpl; [lia | rewrite IH; lia].
Qed.

Lemma positive_increment (k : string) (c : Counter) :
  Forall (fun row => (0 < snd row)%Z) c ->
  Forall (fun row => (0 < snd row)%Z) (increment k c).
Proof.
  induction 1 as [|[k' n] c Hn Hc IH]; simpl.
  - repeat constructor.
  - destruct (k =? k'); constructor; simpl in *; try assumption; lia.
Qed.

Lemma keys_setitem {V} (k : string) (v : V) (d : list (string * V)) :
  map fst (setitem k v d)
  = if in_dec string_dec k (map fst d) then map fst d else map fst d ++ [k].
Proof.
  induction d as [|[k' v'] d IH]; simpl; [reflexivity|].
  destruct (String.eqb_spec k k') as [->|Hne]; simpl.
  - destruct (string_dec k' k'); [reflexivity | congruence].
  - rewrite IH. destruct (string_dec k' k); [congruence|].
    now destruct (in_dec string_dec k (map fst d)).
Qed.

Lemma count_links_invariant (links : list AdvisorLink) :
  forall st : Counter * names,
    map fst (fst st) = map fst (snd st) ->
    Forall (fun row => (0 < snd row)%Z) (fst st) ->
    map fst (fst (fold_left count_link links st))
    = map fst (snd (fold_left count_link links st))
    /\ Forall (fun row => (0 < snd row)%Z) (fst (fold_left count_link links st))
    /\ total (fst (fold_left count_link links st))
       = (total (fst st) + len links)%Z.
Proof.
  induction links as [|[k v] links IH]; intros [c d] Hk Hp.
  - simpl in *. split; [exact Hk|]. split; [exact Hp|]. unfold len. simpl. lia.
  - change (fold_left count_link ((k, v) :: links) (c, d))
      with (fold_left count_link links (increment k c, setitem k v d)).
    simpl in Hk, Hp.
    destruct (IH (increment k c, setitem k v d)) as (Hk' & Hp' & Ht).
    + simpl. rewrite keys_increment, keys_setitem, Hk. reflexivity.
    + simpl. now apply positive_increment.
    + split; [exact Hk'|]. split; [exact Hp'|].
      rewrite Ht. simpl fst. rewrite total_increment.
      unfold len. simpl List.length. lia.
Qed.

(** X14: after step 3 the two tables go together: [advisor_names] has
    a name for exactly the ids that [advisor_count] counts, in the same
    order; every count is positive; and the counts add up to the number
    of AdvisorLinks of the whole record set. *)
Theorem advisor_tables_agree
  (mathematicians_data : list json) (links : list AdvisorLink) :
  all_links mathematicians_data = Ok links ->
  exists advisor_count advisor_names,
    count_advisors mathematicians_data ([], []) = Ok (advisor_count, advisor_names)
    /\ map fst advisor_count = map fst advisor_names
    /\ NoDup (map fst advisor_count)
    /\ Forall (fun row => (0 < snd row)%Z) advisor_count
    /\ total advisor_count = len links.
Proof.
  intros Hl. rewrite (count_advisors_links _ _ _ Hl).
  destruct (count_links_invariant links ([], []) eq_refl (Forall_nil _))
    as (Hk & Hp & Ht).
  destruct (fold_left count_link links ([], [])) as [c d] eqn:Hf.
  exists c, d. simpl in *. split; [reflexivity|]. split; [exact Hk|].
  split; [|split; [exact Hp | exact Ht]].
  rewrite fold_count_link in Hf. injection Hf as <- _.
  apply keys_tally_NoDup. constructor.
Qed.

Lemma advisor_tables_agree_witness :
  exists advisor_count advisor_names,
    count_advisors tie_records ([], []) = Ok (advisor_count, advisor_names)
    /\ map fst advisor_count = map fst advisor_names
    /\ NoDup (map fst advisor_count)
    /\ Forall (fun row => (0 < snd row)%Z) advisor_count
    /\ total advisor_count = len tie_links.
Proof.
  apply (advisor_tables_agree tie_records tie_links). reflexivity.
Defined.

(** ** Building twice *)

Lemma add_node_present (G : adjacency) (n : node) :
  has_node G n = true -> add_node G n = G.
Proof. intros H. unfold add_node. now rewrite H. Qed.

Lemma add_adj_present (G : adjacency) (u v : node) :
  NoDup (map fst G) -> has_edge G u v = true -> add_adj u v G = G.
Proof.
  intros Hnd Huv. apply has_edge_In in Huv. destruct Huv as (vs & Hp & Hv).
  induction G as [|[n ns] G IH]; [reflexivity|]. simpl.
  inversion Hnd as [|? ? Hn Hnd']; subst.
  destruct (node_eqb n u) eqn:He.
  - apply node_eqb_eq in He. subst n.
    assert (ns = vs).
    { destruct Hp as [Hp | Hp]; [congruence|].
      exfalso. apply Hn. change u with (fst (u, vs)). now apply in_map. }
    subst ns. apply (proj2 (mem_In v vs)) in Hv. now rewrite Hv.
  - destruct Hp as [Hp | Hp].
    + injection Hp as -> _. now rewrite node_eqb_refl in He.
    + f_equal. now apply IH.
Qed.

Lemma add_edges_present (advisors : list AdvisorLink) (student_id : json)
  (s : node) (G : DiGraph) :
  NoDup (map fst G) ->
  as_node student_id = Ok s ->
  (forall a n, In (a, n) advisors ->
               has_node G (NStr a) = true /\ has_node G s = true
               /\ has_edge G (NStr a) s = true) ->
  add_edges G advisors student_id = Ok G.
Proof.
  intros Hnd Hs. induction advisors as [|[a n] rest IH]; intros Hall; [reflexivity|].
  simpl. destruct (Hall a n (or_introl eq_refl)) as (Na & Ns & Eas).
  unfold add_edge. simpl. rewrite Hs. simpl.
  rewrite (add_node_present G _ Na), (add_node_present G _ Ns),
    (add_adj_present G _ _ Hnd Eas). simpl.
  apply IH. intros a' n' Hin. apply (Hall a' n'). now right.
Qed.

Lemma build_graph_again (mathematicians_data : list json) :
  forall G0 G G' : DiGraph,
    build_graph mathematicians_data G0 = Ok G ->
    NoDup (map fst G') -> extends G G' ->
    build_graph mathematicians_data G' = Ok G'.
Proof.
  induction mathematicians_data as [|d rest IH]; intros G0 G G'; simpl.
  - reflexivity.
  - destruct (py_in "MGP_academic" d) as [[|]|]; simpl; try discriminate.
    + destruct (py_getitem d "MGP_academic") as [ac|]; simpl; [|discriminate].
      destruct (py_get ac "ID" JNull) as [sid|]; simpl; [|discriminate].
      destruct (extract_advisor_info d) as [adv|]; simpl; [|discriminate].
      destruct (add_edges G0 adv sid) as [G1|] eqn:Ha; simpl; [|discriminate].
      intros Hb Hnd Hext.
      destruct (add_edges_spec _ _ _ _ Ha) as (_ & Hlinks).
      destruct (build_graph_extends _ _ _ Hb) as [N1 E1].
      destruct Hext as [N2 E2].
      destruct adv as [|[a n] adv].
      * simpl. now apply (IH G1 G G').
      * destruct (Hlinks a n (or_introl eq_refl)) as (s & Hs & _).
        rewrite (add_edges_present _ sid s G' Hnd Hs).
        -- simpl. apply (IH G1 G G'); [exact Hb | exact Hnd | now split].
        -- intros a' n' Hin. destruct (Hlinks a' n' Hin) as (s' & Hs' & Na & Ns & Eas).
           assert (s' = s) by congruence. subst s'.
           repeat split; auto.
    + intros Hb Hnd Hext. now apply (IH G0 G G').
Qed.

(** X15: building is idempotent.  Adding the links of the same records
    to the graph they gave changes nothing: a link met again adds no
    node and no second edge. *)
Theorem build_graph_is_idempotent (mathematicians_data : list json) (G : DiGraph) :
  build_graph mathematicians_data [] = Ok G ->
  build_graph mathematicians_data G = Ok G
  /\ build_graph (mathematicians_data ++ mathematicians_data) [] = Ok G.
Proof.
  intros Hb.
  assert (Hagain : build_graph mathematicians_data G = Ok G).
  { apply (build_graph_again _ [] G G Hb); [|apply extends_refl].
    now destruct (linked_build_graph _ _ _ linked_nil Hb). }
  split; [exact Hagain|].
  assert (Happ : forall l1 l2 G0,
             build_graph (l1 ++ l2) G0
             = G1 <- build_graph l1 G0 ;; build_graph l2 G1).
  { clear. induction l1 as [|d l1 IH]; intros l2 G0; simpl; [reflexivity|].
    destruct (py_in "MGP_academic" d) as [[|]|]; simpl; try reflexivity; [|apply IH].
    destruct (py_getitem d "MGP_academic") as [ac|]; simpl; [|reflexivity].
    destruct (py_get ac "ID" JNull) as [sid|]; simpl; [|reflexivity].
    destruct (extract_advisor_info d) as [adv|]; simpl; [|reflexivity].
    destruct (add_edges G0 adv sid) as [G'|]; simpl; [apply IH | reflexivity]. }
  rewrite Happ, Hb. exact Hagain.
Qed.

Lemma build_graph_is_idempotent_witness :
  build_graph scenario scenario_graph = Ok scenario_graph
  /\ build_graph (scenario ++ scenario) [] = Ok scenario_graph.
Proof.
  apply (build_graph_is_idempotent scenario scenario_graph). reflexivity.
Defined.

(** ** Advisees: the extractor and the analysis *)

(** X16: on a record whose advisees field is a mapping,
    [extract_advisees_info] returns its entries, and the record is
    listed as having no advisees exactly when there is none.  On the
    list form of the field, which the analysis accepts (the placeholder
    included), [extract_advisees_info] raises AttributeError. *)
Theorem advisees_extractor_accepts_mappings_only
  (data student_id advisees : json) :
  record_advisees data = Ok (Some (student_id, advisees)) ->
  (forall kvs, advisees = JObj kvs ->
     extract_advisees_info data = Ok kvs
     /\ (no_advisees_test advisees = true <-> kvs = []))
  /\ (forall l, advisees = JList l ->
        extract_advisees_info data = Raise AttributeError).
Proof.
  unfold record_advisees, extract_advisees_info.
  destruct (py_in "MGP_academic" data) as [[|]|]; simpl; try discriminate.
  destruct (py_getitem data "MGP_academic") as [ac|]; simpl; [|discriminate].
  destruct (py_get ac "ID" JNull) as [sid|]; simpl; [|discriminate].
  destruct (py_get ac "student_data" (JObj [])) as [sd|]; simpl; [|discriminate].
  destruct (py_get sd "descendants" (JObj [])) as [ds|]; simpl; [|discriminate].
  destruct (py_get ds "advisees" (JObj [])) as [adv|]; simpl; [|discriminate].
  intros H. injection H as _ ->. split.
  - intros kvs ->. split; [reflexivity|].
    destruct kvs; simpl; split; intros H; try reflexivity; discriminate.
  - intros l ->. reflexivity.
Qed.

Lemma advisees_extractor_accepts_mappings_only_witness :
  (forall kvs, JList [JStr ""] = JObj kvs ->
     extract_advisees_info (graduate "2" (JList [JStr ""]) (JInt 3)) = Ok kvs
     /\ (no_advisees_test (JList [JStr ""]) = true <-> kvs = []))
  /\ (forall l, JList [JStr ""] = JList l ->
        extract_advisees_info (graduate "2" (JList [JStr ""]) (JInt 3))
        = Raise AttributeError).
Proof.
  apply (advisees_extractor_accepts_mappings_only
           (graduate "2" (JList [JStr ""]) (JInt 3)) (JStr "2") (JList [JStr ""])).
  reflexivity.
Defined.

(** ** The table of advisors and names that are not text *)

(** X18: step 3 prints the ranking row by row and formats each name as
    a string: at the first row whose name is not a string (a number,
    [null], a list, a mapping) it raises ValueError or TypeError, after
    printing the rows before it and none of the rows after it. *)
Theorem top_advisors_stops_at_non_string
  (mathematicians_data : list json) (links : list AdvisorLink)
  (before after : list (string * json * Z)) (row : string * json * Z)
  (e : exn) :
  all_links mathematicians_data = Ok links ->
  table_of links = before ++ row :: after ->
  (forall r, In r before -> exists s, snd (fst r) = JStr s) ->
  format_s (snd (fst row)) = Raise e ->
  exists rows,
    top_advisors mathematicians_data = (rows, Raise e)
    /\ map printed rows = before
    /\ (e = TypeError \/ e = ValueError).
Proof.
  intros Hl Htable Hs He. rewrite (top_advisors_rows _ _ Hl).
  assert (Hclass : e = TypeError \/ e = ValueError).
  { destruct (snd (fst row)); simpl in He; try discriminate;
      injection He as <-; auto. }
  unfold table_of in Htable.
  apply map_eq_app in Htable. destruct Htable as (l1 & l2 & Hrank & Hb & Hrest).
  apply map_eq_cons in Hrest. destruct Hrest as (p & l3 & -> & Hp & _).
  subst before row. rewrite Hrank.
  destruct (print_rows_stops (snd (fold_left count_link links ([], [])))
              l1 l3 p e) as (rows & Hrun & Hmap).
  - intros r Hr. apply Hs. now apply in_map.
  - exact He.
  - exists rows. split; [exact Hrun|]. split; [exact Hmap | exact Hclass].
Qed.

Lemma top_advisors_stops_at_non_string_witness :
  exists rows,
    top_advisors unnamed_records = (rows, Raise TypeError)
    /\ map printed rows = [("X", JStr "Xavier", 2%Z)]
    /\ (TypeError = TypeError \/ TypeError = ValueError).
Proof.
  apply (top_advisors_stops_at_non_string unnamed_records
           [("X", JStr "Xavier"); ("X", JStr "Xavier"); ("Y", JNull)]
           [("X", JStr "Xavier", 2%Z)] [] ("Y", JNull, 1%Z) TypeError).
  - reflexivity.
  - reflexivity.
  - intros r [<-|[]]. now exists "Xavier".
  - reflexivity.
Defined.

(** ** Strings as sequences of characters *)

(** Iterating over a string and taking its first element go by
    characters, not by bytes. *)
Example chars_of_accented_text :
  py_iter (JStr "São") = Ok [JStr "S"; JStr "ã"; JStr "o"]
  /\ first_of (JStr "África") = Ok (JStr "Á")
  /\ py_len (JStr "São") = Ok 3%Z.
Proof. repeat split. Qed.
